(** * FOOM token ledger and engagement-gating engine

    A shallow embedding of the services that mutate a user's balance
    record: [RewardsService] (rewardsService.ts), [BlockerService]
    (blockerService.ts), [WalletService] (walletService.ts) and
    [UsageService] (usageService.ts), over a model of the Firestore
    documents they read and write.

    Conventions.
    - A JavaScript [number] holding tokens, minutes or epoch milliseconds
      is a [Z]; [Math.floor (m / 60)] is [m `div` 60] (floor division).
      A fund's unit price and the units bought are exact rationals [Qc].
    - An optional field or argument is an [option]; [x || d] on such a
      value is [default d x].
    - An [async] function is a [Prog]: a tree of atomic steps on the
      [World], one for each [await], each of which resolves or rejects.
      A Firestore transaction is one such step; a read or a write outside
      a transaction is a step of its own, so another call can run between
      the two.
    - What the environment decides (the clock, the platform, whether a
      call to Firestore or to a native module fails, the random outcome of
      the mock STK push, the wording of the engine's errors) is read from
      an [Env].  [now] is the first [Date.now ()] of a call and
      [nowAgain k] the readings after it, in order.
    - [firestoreInstance] is the Firestore instance [firestore ()] exported
      by api/firebase.ts.  The services take the server timestamp from
      [firestoreInstance.FieldValue], which the instance does not have:
      see [instance_serverTimestamp]. *)

From Stdlib Require Import ZArith QArith Qcanon Lia Ascii.
From stdpp Require Import base strings gmap list sorting pretty.

Open Scope Z_scope.

(** ** Configuration (config/constants.ts) *)

Record AppConfig := {
  TOKENS_PER_HOUR : Z;
  UNLOCK_COST_TOKENS : Z;
  UNLOCK_DURATION_MINUTES : Z
}.

(** The values [parseInt] yields when the process environment sets none. *)
Definition APP_CONFIG : AppConfig :=
  {| TOKENS_PER_HOUR := 10; UNLOCK_COST_TOKENS := 20;
     UNLOCK_DURATION_MINUTES := 60 |}.

Inductive TransactionType :=
  | REWARD | UNLOCK | PURCHASE | INVESTMENT | WITHDRAWAL.

(** ** Documents (types/index.ts) *)

Record UnlockSession := {
  packageName : string;
  unlockedAt : Z;
  expiresAt : Z
}.

Record Metadata := {
  appPackage : option string;
  appName : option string;
  minutes : option Z;
  mmfId : option string;
  mmfName : option string;
  phoneNumber : option string;
  windowStart : option Z;
  windowEnd : option Z
}.

Record Transaction := {
  tx_uid : string;
  tx_type : TransactionType;
  amount : Z;
  balance : Z;
  timestamp : Z;
  metadata : Metadata
}.

Record Investment := {
  inv_uid : string;
  inv_mmfId : string;
  inv_mmfName : string;
  inv_amount : Z;
  units : Qc;
  inv_timestamp : Z
}.

Record UsageStats := {
  us_packageName : string;
  us_appName : string;
  us_minutes : Z
}.

(** The fields of [users/{uid}] the engine reads or writes.  A field may
    be missing from the stored document. *)
Record UserDoc := {
  tokensBalance : option Z;
  lockedApps : option (list string);
  unlockSessions : option (list UnlockSession);
  mmfPreference : option string;
  updatedAt : option Z
}.

#[global] Instance TransactionType_eq_dec : EqDecision TransactionType.
Proof. solve_decision. Defined.
#[global] Instance UnlockSession_eq_dec : EqDecision UnlockSession.
Proof. solve_decision. Defined.
#[global] Instance UserDoc_eq_dec : EqDecision UserDoc.
Proof. solve_decision. Defined.

(** ** The Firestore database and the world around it *)

(** [users/{uid}], the subcollections [users/{uid}/transactions] and
    [users/{uid}/investments] in commit order (newest last), and
    [processedWindows/{windowId}] with its [processedAt]. *)
Record Firestore := {
  users : gmap string UserDoc;
  transactions : gmap string (list Transaction);
  investments : gmap string (list Investment);
  processedWindows : gmap string Z
}.

(** The database together with the package list the native
    [BlockerModule] was last handed. *)
Record World := {
  db : Firestore;
  blocker : list string
}.

Definition with_db (f : Firestore → Firestore) (w : World) : World :=
  {| db := f (db w); blocker := blocker w |}.

Record Env := {
  now : Z;                 (* the first Date.now () of the call *)
  nowAgain : nat → Z;      (* the later Date.now () of the call, in order *)
  android : bool;          (* Platform.OS === 'android' *)
  getFails : bool;         (* a document read outside a transaction throws *)
  txFails : bool;          (* runTransaction rejects without committing *)
  writeFails : bool;       (* a set or update outside a transaction throws *)
  nativeFails : bool;      (* a native module call rejects *)
  usageReply : option (list UsageStats);   (* UsageModule.getUsageStats *)
  paymentOk : bool;        (* Math.random () > 0.1 in simulateStkPush *)
  stkSuffix : Z;           (* Math.floor (Math.random () * 1000) *)
  freshId : string;        (* the id Firestore gives a new document *)
  typeErrorText : string   (* the engine's message for reading a property
                              of undefined *)
}.

(** The environment of the rest of a call once it has read the clock. *)
Definition tick (e : Env) : Env :=
  {| now := nowAgain e 0; nowAgain := λ k, nowAgain e (S k);
     android := android e; getFails := getFails e; txFails := txFails e;
     writeFails := writeFails e; nativeFails := nativeFails e;
     usageReply := usageReply e; paymentOk := paymentOk e;
     stkSuffix := stkSuffix e; freshId := freshId e;
     typeErrorText := typeErrorText e |}.

(** ** Promises *)

Inductive Outcome (A : Type) : Type :=
  | Resolved (a : A)
  | Rejected (err : string).
Arguments Resolved {A} a.
Arguments Rejected {A} err.

(** An asynchronous computation: every [Await] is one atomic step on the
    world, after which another computation may be scheduled. *)
Inductive Prog (A : Type) : Type :=
  | Ret (a : A)
  | Throw (err : string)
  | Await {X : Type} (io : World → World * Outcome X) (k : Outcome X → Prog A).
Arguments Ret {A} a.
Arguments Throw {A} err.
Arguments Await {A X} io k.

Fixpoint bind {A B} (p : Prog A) (f : A → Prog B) : Prog B :=
  match p with
  | Ret a => f a
  | Throw e => Throw e
  | Await io k => Await io (λ o, bind (k o) f)
  end.

(** [try { p } catch (error) { h error }] *)
Fixpoint tryCatch {A} (p : Prog A) (h : string → Prog A) : Prog A :=
  match p with
  | Ret a => Ret a
  | Throw e => h e
  | Await io k => Await io (λ o, tryCatch (k o) h)
  end.

Definition settle {A} (o : Outcome A) : Prog A :=
  match o with Resolved a => Ret a | Rejected e => Throw e end.

Definition await {A} (io : World → World * Outcome A) : Prog A :=
  Await io settle.

(** Running a computation to completion with nothing interleaved. *)
Fixpoint run {A} (p : Prog A) (w : World) : World * Outcome A :=
  match p with
  | Ret a => (w, Resolved a)
  | Throw e => (w, Rejected e)
  | Await io k => let '(w', o) := io w in run (k o) w'
  end.

#[global] Instance Prog_ret : MRet Prog := λ A a, Ret a.
#[global] Instance Prog_bind : MBind Prog := λ A B f p, bind p f.

(** ** Firestore transactions

    The update function of [runTransaction] reads the snapshot and queues
    writes; they are applied together when it returns, and not at all
    when it throws. *)

Definition Tx (A : Type) : Type := Firestore → Outcome (A * Firestore).

#[global] Instance Tx_ret : MRet Tx := λ A a fs, Resolved (a, fs).
#[global] Instance Tx_bind : MBind Tx := λ A B f m fs,
  match m fs with
  | Resolved (a, fs') => f a fs'
  | Rejected e => Rejected e
  end.

Definition tx_throw {A} (e : string) : Tx A := λ _, Rejected e.

(** [transaction.get (userRef)]: [None] when [!userDoc.exists]. *)
Definition tx_get (uid : string) : Tx (option UserDoc) :=
  λ fs, Resolved (users fs !! uid, fs).

Definition update_user (uid : string) (f : UserDoc → UserDoc)
    (fs : Firestore) : Firestore :=
  {| users := alter f uid (users fs);
     transactions := transactions fs;
     investments := investments fs;
     processedWindows := processedWindows fs |}.

(** [transaction.update (userRef, fields)]; updating a missing document
    fails the transaction. *)
Definition tx_update (uid : string) (f : UserDoc → UserDoc) : Tx unit :=
  λ fs, match users fs !! uid with
        | Some _ => Resolved (tt, update_user uid f fs)
        | None => Rejected "No document to update"
        end.

Definition add_transaction (uid : string) (t : Transaction)
    (fs : Firestore) : Firestore :=
  {| users := users fs;
     transactions :=
       <[uid := default [] (transactions fs !! uid) ++ [t]]> (transactions fs);
     investments := investments fs;
     processedWindows := processedWindows fs |}.

Definition add_investment (uid : string) (i : Investment)
    (fs : Firestore) : Firestore :=
  {| users := users fs;
     transactions := transactions fs;
     investments :=
       <[uid := default [] (investments fs !! uid) ++ [i]]> (investments fs);
     processedWindows := processedWindows fs |}.

Definition mark_window (windowId : string) (processedAt : Z)
    (fs : Firestore) : Firestore :=
  {| users := users fs;
     transactions := transactions fs;
     investments := investments fs;
     processedWindows := <[windowId := processedAt]> (processedWindows fs) |}.

(** [transaction.set (ref, data)] on a fresh document of a subcollection. *)
Definition tx_set_transaction (uid : string) (t : Transaction) : Tx unit :=
  λ fs, Resolved (tt, add_transaction uid t fs).

Definition tx_set_investment (uid : string) (i : Investment) : Tx unit :=
  λ fs, Resolved (tt, add_investment uid i fs).

(** A field that is present with the value [undefined], as in
    [{mmfId, mmfName, phoneNumber}] when [phoneNumber] was not passed:
    Firestore refuses the data ([ignoreUndefinedProperties] is not set). *)
Definition tx_undefined_field {A} : Tx A :=
  tx_throw "Unsupported field value: undefined".

(** ** [firestoreInstance.FieldValue.serverTimestamp ()]

    [FieldValue] is a static of the namespace [firestore]; the helpers of
    api/firebase.ts reach it as [firestore.FieldValue].  The instance
    [firestoreInstance = firestore ()] has no such property, so
    [firestoreInstance.FieldValue] is [undefined] and reading
    [serverTimestamp] from it throws a [TypeError].  The services evaluate
    the expression while they build the data of a write, so the throw
    comes before the write is issued. *)
Definition tx_instance_serverTimestamp (e : Env) : Tx Z :=
  tx_throw (typeErrorText e).

Definition instance_serverTimestamp (e : Env) : Prog Z :=
  Throw (typeErrorText e).

(** [firestoreHelpers.runTransaction] (api/firebase.ts) and
    [firestoreInstance.runTransaction]: one atomic step. *)
Definition runTransaction {A} (e : Env) (updateFunction : Tx A) : Prog A :=
  await (λ w,
    if txFails e then (w, Rejected "Transaction failed")
    else match updateFunction (db w) with
         | Resolved (a, fs') => (with_db (λ _, fs') w, Resolved a)
         | Rejected err => (w, Rejected err)
         end).

(** [ref.get ()] outside a transaction. *)
Definition doc_get {A} (e : Env) (read : Firestore → A) : Prog A :=
  await (λ w,
    if getFails e then (w, Rejected "Firestore unavailable")
    else (w, Resolved (read (db w)))).

(** [userRef.update (fields)] outside a transaction. *)
Definition doc_update (e : Env) (uid : string) (f : UserDoc → UserDoc) : Prog unit :=
  await (λ w,
    if writeFails e then (w, Rejected "Firestore unavailable")
    else match users (db w) !! uid with
         | Some _ => (with_db (update_user uid f) w, Resolved tt)
         | None => (w, Rejected "No document to update")
         end).

(** [processedWindows.doc (windowId).set ({processedAt:
    firestoreInstance.FieldValue.serverTimestamp ()})]. *)
Definition window_set (e : Env) (windowId : string) : Prog unit :=
  processedAt ← instance_serverTimestamp e;
  await (λ w,
    if writeFails e then (w, Rejected "Firestore unavailable")
    else (with_db (mark_window windowId processedAt) w, Resolved tt)).

Definition unmark_windows (windowIds : list string) (fs : Firestore) : Firestore :=
  {| users := users fs;
     transactions := transactions fs;
     investments := investments fs;
     processedWindows := foldr delete (processedWindows fs) windowIds |}.

(** [batch.commit ()] of a batch of [batch.delete (doc.ref)] on
    [processedWindows]. *)
Definition batch_commit (e : Env) (windowIds : list string) : Prog unit :=
  await (λ w,
    if writeFails e then (w, Rejected "Firestore unavailable")
    else (with_db (unmark_windows windowIds) w, Resolved tt)).

(** ** UsageService *)

Module UsageService.

Definition getUsageStats (e : Env) (startMillis endMillis : Z)
    : Prog (list UsageStats) :=
  if negb (android e) then mret []
  else
    tryCatch
      (stats ← await (λ w,
          (w, match usageReply e with
              | Some s => Resolved s
              | None => Rejected "UsageModule failed"
              end));
       mret stats)
      (λ _, mret []).

Definition getTotalMinutes (stats : list UsageStats) : Z :=
  foldl (λ total stat, total + us_minutes stat) 0 stats.

End UsageService.

(** ** RewardsService *)

Record AwardResult := {
  tokensAwarded : Z;
  totalMinutes : Z
}.

Definition credit_balance (newBalance : Z) (t : Z) (u : UserDoc) : UserDoc :=
  {| tokensBalance := Some newBalance;
     lockedApps := lockedApps u;
     unlockSessions := unlockSessions u;
     mmfPreference := mmfPreference u;
     updatedAt := Some t |}.

(** What [getEarningsStats] returns: [tokens], [minutes] and [count]. *)
Record EarningsStats := {
  es_tokens : Z;
  es_minutes : Z;
  es_count : Z
}.

Module RewardsService.

Definition calculateTokens (cfg : AppConfig) (totalMinutes : Z) : Z :=
  let hours := totalMinutes `div` 60 in
  hours * TOKENS_PER_HOUR cfg.

Definition generateWindowId (uid : string) (startMillis endMillis : Z) : string :=
  uid +:+ "_" +:+ pretty startMillis +:+ "_" +:+ pretty endMillis.

Definition isWindowProcessed (e : Env) (windowId : string) : Prog bool :=
  tryCatch
    (doc ← doc_get e (λ fs, processedWindows fs !! windowId);
     mret (bool_decide (is_Some doc)))
    (λ _, mret false).

Definition markWindowProcessed (e : Env) (windowId : string) : Prog unit :=
  tryCatch (window_set e windowId) (λ error, Throw error).

(** The update function handed to [runTransaction]. *)
Definition awardTx (e : Env) (uid : string)
    (tokensAwarded totalMinutes startMillis endMillis : Z) : Tx unit :=
  userDoc ← tx_get uid;
  match userDoc with
  | None => tx_throw "User not found"
  | Some userData =>
      let currentBalance := default 0 (tokensBalance userData) in
      let newBalance := currentBalance + tokensAwarded in
      updatedAt ← tx_instance_serverTimestamp e;
      tx_update uid (credit_balance newBalance updatedAt);;
      tx_set_transaction uid
        {| tx_uid := uid; tx_type := REWARD; amount := tokensAwarded;
           balance := newBalance; timestamp := now e;
           metadata :=
             {| appPackage := None; appName := None;
                minutes := Some totalMinutes; mmfId := None;
                mmfName := None; phoneNumber := None;
                windowStart := Some startMillis;
                windowEnd := Some endMillis |} |}
  end.

Definition awardTokensForWindow (cfg : AppConfig) (e : Env) (uid : string)
    (startMillis endMillis : Z) (manualMinutes : option Z) : Prog AwardResult :=
  let windowId := generateWindowId uid startMillis endMillis in
  alreadyProcessed ← isWindowProcessed e windowId;
  if alreadyProcessed : bool then
    mret {| tokensAwarded := 0; totalMinutes := 0 |}
  else
    tryCatch
      (totalMinutes ←
         match manualMinutes with
         | Some m => mret m
         | None =>
             stats ← UsageService.getUsageStats e startMillis endMillis;
             mret (UsageService.getTotalMinutes stats)
         end;
       let tokensAwarded := calculateTokens cfg totalMinutes in
       if tokensAwarded =? 0 then
         markWindowProcessed e windowId;;
         mret {| tokensAwarded := 0; totalMinutes := totalMinutes |}
       else
         runTransaction e
           (awardTx e uid tokensAwarded totalMinutes startMillis endMillis);;
         markWindowProcessed e windowId;;
         mret {| tokensAwarded := tokensAwarded;
                 totalMinutes := totalMinutes |})
      (λ error, Throw error).

Definition awardDailyTokens (cfg : AppConfig) (e : Env) (uid : string)
    : Prog AwardResult :=
  let endMillis := now e in
  let startMillis := endMillis - 24 * 60 * 60 * 1000 in
  awardTokensForWindow cfg (tick e) uid startMillis endMillis None.

Definition awardHourlyTokens (cfg : AppConfig) (e : Env) (uid : string)
    : Prog AwardResult :=
  let endMillis := now e in
  let startMillis := endMillis - 60 * 60 * 1000 in
  awardTokensForWindow cfg (tick e) uid startMillis endMillis None.

(** [orderBy ('timestamp', 'desc')] on a user's transactions.  Entries of
    one timestamp come in the order of their document ids, which the model
    does not hold; no statement below depends on it. *)
Definition newestFirst (a b : Transaction) : Prop :=
  timestamp b ≤ timestamp a.

#[global] Instance newestFirst_dec : RelDecision newestFirst.
Proof. intros a b. unfold newestFirst. apply _. Defined.

#[global] Instance newestFirst_trans : Transitive newestFirst.
Proof. unfold newestFirst. intros a b c ??. lia. Qed.

#[global] Instance newestFirst_total : Total newestFirst.
Proof. unfold newestFirst. intros a b. lia. Qed.

(** [.limit (limit)] refuses a limit below one, which the callers' [catch]
    turns into the empty list that [take 0] gives. *)
Definition getTransactionHistory (e : Env) (uid : string) (limit : option Z)
    : Prog (list Transaction) :=
  let limit := default 50 limit in
  tryCatch
    (doc_get e (λ fs,
       take (Z.to_nat limit)
         (merge_sort newestFirst (default [] (transactions fs !! uid)))))
    (λ _, mret []).

Definition getTransactionsByType (e : Env) (uid : string)
    (type : TransactionType) (limit : option Z) : Prog (list Transaction) :=
  let limit := default 50 limit in
  tryCatch
    (doc_get e (λ fs,
       take (Z.to_nat limit)
         (merge_sort newestFirst
            (filter (λ t, tx_type t = type)
               (default [] (transactions fs !! uid))))))
    (λ _, mret []).

Definition getTotalTokensEarned (e : Env) (uid : string) : Prog Z :=
  tryCatch
    (rewardTransactions ← getTransactionsByType e uid REWARD (Some 1000);
     let total := foldl (λ sum tx, sum + amount tx) 0 rewardTransactions in
     mret total)
    (λ _, mret 0).

Definition countReward (acc : EarningsStats) (data : Transaction)
    : EarningsStats :=
  {| es_tokens := es_tokens acc + amount data;
     es_minutes := es_minutes acc + default 0 (minutes (metadata data));
     es_count := es_count acc + 1 |}.

Definition getEarningsStats (e : Env) (uid : string) (startMillis endMillis : Z)
    : Prog EarningsStats :=
  tryCatch
    (docs ← doc_get e (λ fs,
       filter (λ t, tx_type t = REWARD ∧ startMillis ≤ timestamp t
                    ∧ timestamp t ≤ endMillis)
         (default [] (transactions fs !! uid)));
     mret (foldl countReward
             {| es_tokens := 0; es_minutes := 0; es_count := 0 |} docs))
    (λ _, mret {| es_tokens := 0; es_minutes := 0; es_count := 0 |}).

(** The order of a query with the one filter [processedAt < ...]: by
    [processedAt], then by document id. *)
Definition olderFirst (a b : string * Z) : Prop :=
  a.2 < b.2 ∨ (a.2 = b.2 ∧ String.le a.1 b.1).

#[global] Instance olderFirst_dec : RelDecision olderFirst.
Proof. intros a b. unfold olderFirst. apply _. Defined.

(** [doc.id.startsWith (uid)] *)
Definition startsWith (s searchString : string) : bool :=
  String.prefix searchString s.

Definition cleanupOldWindows (e : Env) (uid : string) : Prog unit :=
  tryCatch
    (let thirtyDaysAgo := now e - 30 * 24 * 60 * 60 * 1000 in
     snapshot ← doc_get e (λ fs,
       take 500
         (merge_sort olderFirst
            (filter (λ d, d.2 < thirtyDaysAgo)
               (map_to_list (processedWindows fs)))));
     batch_commit e
       (fst <$> filter (λ d, startsWith d.1 uid = true) snapshot))
    (λ _, mret tt).

End RewardsService.

(** ** BlockerService *)

Record SpendResult := {
  success : bool;
  newBalance : Z;
  message : string
}.

(** [Array.from (new Set (xs))]: the first occurrence of each element, in
    insertion order. *)
Fixpoint setInsertAll (seen : list string) (xs : list string) : list string :=
  match xs with
  | [] => []
  | x :: xs' =>
      if bool_decide (x ∈ seen) then setInsertAll seen xs'
      else x :: setInsertAll (x :: seen) xs'
  end.

Definition arrayFromSet (xs : list string) : list string := setInsertAll [] xs.

Definition set_lockedApps (apps : list string) (t : Z) (u : UserDoc) : UserDoc :=
  {| tokensBalance := tokensBalance u;
     lockedApps := Some apps;
     unlockSessions := unlockSessions u;
     mmfPreference := mmfPreference u;
     updatedAt := Some t |}.

Module BlockerService.

Definition updateLockedApps (e : Env) (packageNames : list string) : Prog unit :=
  if negb (android e) then mret tt
  else
    tryCatch
      (await (λ w,
         if nativeFails e then (w, Rejected "BlockerModule failed")
         else ({| db := db w; blocker := packageNames |}, Resolved tt)))
      (λ error, Throw error).

Definition unlockTx (cfg : AppConfig) (e : Env) (uid pkg app : string)
    : Tx SpendResult :=
  let unlockCost := UNLOCK_COST_TOKENS cfg in
  let unlockDurationMs := UNLOCK_DURATION_MINUTES cfg * 60 * 1000 in
  userDoc ← tx_get uid;
  match userDoc with
  | None => tx_throw "User not found"
  | Some userData =>
      let currentBalance := default 0 (tokensBalance userData) in
      if bool_decide (currentBalance < unlockCost) then
        mret {| success := false; newBalance := currentBalance;
                message := "Insufficient tokens. You need " +:+ pretty unlockCost
                  +:+ " tokens but have " +:+ pretty currentBalance +:+ "." |}
      else
        let newBalance := currentBalance - unlockCost in
        let now := now e in
        let expiresAt' := now + unlockDurationMs in
        let lockedApps' := default [] (lockedApps userData) in
        let unlockSessions' := default [] (unlockSessions userData) in
        let updatedLockedApps := filter (λ p, p ≠ pkg) lockedApps' in
        let newSession :=
          {| packageName := pkg; unlockedAt := now; expiresAt := expiresAt' |} in
        let activeSessions := filter (λ s, now < expiresAt s) unlockSessions' in
        let activeSessions := activeSessions ++ [newSession] in
        updatedAt ← tx_instance_serverTimestamp e;
        tx_update uid (λ u,
          {| tokensBalance := Some newBalance;
             lockedApps := Some updatedLockedApps;
             unlockSessions := Some activeSessions;
             mmfPreference := mmfPreference u;
             updatedAt := Some updatedAt |});;
        tx_set_transaction uid
          {| tx_uid := uid; tx_type := UNLOCK; amount := - unlockCost;
             balance := newBalance; timestamp := now;
             metadata :=
               {| appPackage := Some pkg; appName := Some app;
                  minutes := None; mmfId := None; mmfName := None;
                  phoneNumber := None; windowStart := None;
                  windowEnd := None |} |};;
        mret {| success := true; newBalance := newBalance;
                message := app +:+ " unlocked for "
                  +:+ pretty (UNLOCK_DURATION_MINUTES cfg) +:+ " minutes!" |}
  end.

(** [userDoc.data ()?.lockedApps || []] *)
Definition readLockedApps (uid : string) (fs : Firestore) : list string :=
  default [] (users fs !! uid ≫= lockedApps).

Definition unlockApp (cfg : AppConfig) (e : Env) (uid pkg app : string)
    : Prog SpendResult :=
  tryCatch
    (result ← runTransaction e (unlockTx cfg e uid pkg app);
     (if success result then
        lockedApps ← doc_get e (readLockedApps uid);
        updateLockedApps e lockedApps
      else mret tt);;
     mret result)
    (λ _, mret {| success := false; newBalance := 0;
                  message := "Failed to unlock app. Please try again." |}).

Definition relockExpiredSessions (e : Env) (uid : string) : Prog unit :=
  tryCatch
    (userDoc ← doc_get e (λ fs, users fs !! uid);
     match userDoc with
     | None => mret tt
     | Some userData =>
         let unlockSessions' := default [] (unlockSessions userData) in
         let lockedApps' := default [] (lockedApps userData) in
         let now := now e in
         let expiredSessions := filter (λ s, expiresAt s ≤ now) unlockSessions' in
         let activeSessions := filter (λ s, now < expiresAt s) unlockSessions' in
         if (length expiredSessions =? 0)%nat then mret tt
         else
           let expiredPackages := packageName <$> expiredSessions in
           let updatedLockedApps := arrayFromSet (lockedApps' ++ expiredPackages) in
           updatedAt ← instance_serverTimestamp e;
           doc_update e uid (λ u,
             {| tokensBalance := tokensBalance u;
                lockedApps := Some updatedLockedApps;
                unlockSessions := Some activeSessions;
                mmfPreference := mmfPreference u;
                updatedAt := Some updatedAt |});;
           updateLockedApps e updatedLockedApps
     end)
    (λ _, mret tt).

(** The four lock-set edits share their shape: a transaction that
    rewrites [lockedApps], then a read and a push to the native module;
    any error is logged and rethrown. *)
Definition editLockedApps (e : Env) (uid : string) (body : Tx unit) : Prog unit :=
  tryCatch
    (runTransaction e body;;
     lockedApps ← doc_get e (readLockedApps uid);
     updateLockedApps e lockedApps)
    (λ error, Throw error).

Definition lockAppTx (e : Env) (uid pkg : string) : Tx unit :=
  userDoc ← tx_get uid;
  match userDoc with
  | None => tx_throw "User not found"
  | Some userData =>
      let lockedApps' := default [] (lockedApps userData) in
      if bool_decide (pkg ∈ lockedApps') then mret tt
      else
        updatedAt ← tx_instance_serverTimestamp e;
        tx_update uid (set_lockedApps (lockedApps' ++ [pkg]) updatedAt)
  end.

Definition lockApp (e : Env) (uid pkg : string) : Prog unit :=
  editLockedApps e uid (lockAppTx e uid pkg).

Definition unlockAppPermanentlyTx (e : Env) (uid pkg : string) : Tx unit :=
  userDoc ← tx_get uid;
  match userDoc with
  | None => tx_throw "User not found"
  | Some userData =>
      let lockedApps' := default [] (lockedApps userData) in
      let updatedLockedApps := filter (λ p, p ≠ pkg) lockedApps' in
      updatedAt ← tx_instance_serverTimestamp e;
      tx_update uid (set_lockedApps updatedLockedApps updatedAt)
  end.

Definition unlockAppPermanently (e : Env) (uid pkg : string) : Prog unit :=
  editLockedApps e uid (unlockAppPermanentlyTx e uid pkg).

Definition lockMultipleAppsTx (e : Env) (uid : string) (pkgs : list string)
    : Tx unit :=
  userDoc ← tx_get uid;
  match userDoc with
  | None => tx_throw "User not found"
  | Some userData =>
      let existingLockedApps := default [] (lockedApps userData) in
      let updatedLockedApps := arrayFromSet (existingLockedApps ++ pkgs) in
      updatedAt ← tx_instance_serverTimestamp e;
      tx_update uid (set_lockedApps updatedLockedApps updatedAt)
  end.

Definition lockMultipleApps (e : Env) (uid : string) (pkgs : list string)
    : Prog unit :=
  editLockedApps e uid (lockMultipleAppsTx e uid pkgs).

Definition unlockMultipleAppsPermanentlyTx (e : Env) (uid : string)
    (pkgs : list string) : Tx unit :=
  userDoc ← tx_get uid;
  match userDoc with
  | None => tx_throw "User not found"
  | Some userData =>
      let lockedApps' := default [] (lockedApps userData) in
      let updatedLockedApps := filter (λ p, p ∉ pkgs) lockedApps' in
      updatedAt ← tx_instance_serverTimestamp e;
      tx_update uid (set_lockedApps updatedLockedApps updatedAt)
  end.

Definition unlockMultipleAppsPermanently (e : Env) (uid : string)
    (pkgs : list string) : Prog unit :=
  editLockedApps e uid (unlockMultipleAppsPermanentlyTx e uid pkgs).

Definition getLockedApps (e : Env) (uid : string) : Prog (list string) :=
  tryCatch
    (userDoc ← doc_get e (λ fs, users fs !! uid);
     match userDoc with
     | None => mret []
     | Some userData => mret (default [] (lockedApps userData))
     end)
    (λ _, mret []).

Definition getActiveUnlockSessions (e : Env) (uid : string)
    : Prog (list UnlockSession) :=
  tryCatch
    (userDoc ← doc_get e (λ fs, users fs !! uid);
     match userDoc with
     | None => mret []
     | Some userData =>
         let allSessions := default [] (unlockSessions userData) in
         let now := now e in
         mret (filter (λ session, now < expiresAt session) allSessions)
     end)
    (λ _, mret []).

Definition isAppUnlocked (e : Env) (uid pkg : string) : Prog bool :=
  activeSessions ← getActiveUnlockSessions e uid;
  mret (existsb (λ session, bool_decide (packageName session = pkg))
          activeSessions).

(** The clock is read once more after the sessions have come back:
    [later] is that reading. *)
Definition getUnlockTimeRemaining (e : Env) (later : Z) (uid pkg : string)
    : Prog Z :=
  activeSessions ← getActiveUnlockSessions e uid;
  match List.find (λ s, bool_decide (packageName s = pkg)) activeSessions with
  | None => mret 0
  | Some session =>
      let remaining := expiresAt session - later in
      mret (Z.max 0 remaining)
  end.

End BlockerService.

(** ** WalletService *)

Record PaymentResult := {
  pay_success : bool;
  transactionId : string;
  pay_message : string
}.

Record InvestResult := {
  inv_success : bool;
  inv_message : string;
  investmentId : option string
}.

(** JavaScript truthiness of an optional string: neither [undefined] nor
    the empty string. *)
Definition truthy (s : option string) : bool :=
  match s with
  | Some s' => bool_decide (s' ≠ "")
  | None => false
  end.

(** [await new Promise (resolve => setTimeout (resolve, ms))] *)
Definition sleep : Prog unit := await (λ w, (w, Resolved tt)).

Record InvestmentSummary := {
  totalInvested : Z;
  totalInvestments : nat;
  uniqueMMFs : nat;
  averageInvestment : Qc
}.

Module WalletService.

Definition simulateStkPush (e : Env) (phoneNumber : string) (amount : Z)
    : Prog PaymentResult :=
  sleep;;
  if paymentOk e then
    mret {| pay_success := true;
            transactionId := "MPX" +:+ pretty (now e) +:+ pretty (stkSuffix e);
            pay_message := "Payment successful" |}
  else
    mret {| pay_success := false; transactionId := "";
            pay_message := "Payment failed. Please try again." |}.

Definition invalidPhone (phoneNumber : string) : bool :=
  bool_decide (phoneNumber = "")
  || bool_decide (String.length phoneNumber < 10)%nat.

Definition purchaseTx (e : Env) (uid : string) (tokenAmount : Z)
    (phone : string) : Tx Z :=
  userDoc ← tx_get uid;
  match userDoc with
  | None => tx_throw "User not found"
  | Some userData =>
      let currentBalance := default 0 (tokensBalance userData) in
      let newBalance := currentBalance + tokenAmount in
      updatedAt ← tx_instance_serverTimestamp e;
      tx_update uid (credit_balance newBalance updatedAt);;
      tx_set_transaction uid
        {| tx_uid := uid; tx_type := PURCHASE; amount := tokenAmount;
           balance := newBalance; timestamp := now e;
           metadata :=
             {| appPackage := None; appName := None; minutes := None;
                mmfId := None; mmfName := None; phoneNumber := Some phone;
                windowStart := None; windowEnd := None |} |};;
      mret newBalance
  end.

Definition purchaseTokens (e : Env) (uid : string) (tokenAmount : Z)
    (phone : string) : Prog SpendResult :=
  tryCatch
    (let amount := tokenAmount in
     if invalidPhone phone then
       mret {| success := false; message := "Invalid phone number";
               newBalance := 0 |}
     else if bool_decide (tokenAmount ≤ 0) then
       mret {| success := false; message := "Amount must be greater than 0";
               newBalance := 0 |}
     else
       paymentResult ← simulateStkPush e phone amount;
       if negb (pay_success paymentResult) then
         mret {| success := false; message := pay_message paymentResult;
                 newBalance := 0 |}
       else
         result ← runTransaction e (purchaseTx (tick e) uid tokenAmount phone);
         mret {| success := true;
                 message := "Successfully purchased " +:+ pretty tokenAmount
                   +:+ " tokens";
                 newBalance := result |})
    (λ _, mret {| success := false;
                  message := "Failed to purchase tokens. Please try again.";
                  newBalance := 0 |}).

(** The update function of [investInMMF].  It reads the clock twice, for
    the position and then for the entry; [e] is the environment at the
    first of the two readings. *)
Definition investTx (e : Env) (uid fundId fundName : string) (tokenAmount : Z)
    (units : Qc) (phone : option string) : Tx string :=
  userDoc ← tx_get uid;
  match userDoc with
  | None => tx_throw "User not found"
  | Some userData =>
      let currentBalance := default 0 (tokensBalance userData) in
      if negb (truthy phone) && bool_decide (currentBalance < tokenAmount) then
        tx_throw "Insufficient token balance"
      else
        let newBalance :=
          if truthy phone then currentBalance else currentBalance - tokenAmount in
        updatedAt ← tx_instance_serverTimestamp e;
        tx_update uid (λ u,
          {| tokensBalance := Some newBalance;
             lockedApps := lockedApps u;
             unlockSessions := unlockSessions u;
             mmfPreference := Some fundId;
             updatedAt := Some updatedAt |});;
        tx_set_investment uid
          {| inv_uid := uid; inv_mmfId := fundId; inv_mmfName := fundName;
             inv_amount := tokenAmount; units := units;
             inv_timestamp := now e |};;
        match phone with
        | None => tx_undefined_field
        | Some _ =>
            tx_set_transaction uid
              {| tx_uid := uid; tx_type := INVESTMENT;
                 amount := if truthy phone then tokenAmount else - tokenAmount;
                 balance := newBalance; timestamp := now (tick e);
                 metadata :=
                   {| appPackage := None; appName := None; minutes := None;
                      mmfId := Some fundId; mmfName := Some fundName;
                      phoneNumber := phone; windowStart := None;
                      windowEnd := None |} |}
        end;;
        mret (freshId e)
  end.

Definition investInMMF (e : Env) (uid fundId fundName : string)
    (tokenAmount : Z) (unitPrice : Qc) (phone : option string)
    : Prog InvestResult :=
  tryCatch
    (if bool_decide (tokenAmount ≤ 0) then
       mret {| inv_success := false;
               inv_message := "Investment amount must be greater than 0";
               investmentId := None |}
     else if bool_decide (unitPrice ≤ 0)%Qc then
       mret {| inv_success := false; inv_message := "Invalid unit price";
               investmentId := None |}
     else
       let units := (Q2Qc (inject_Z tokenAmount) / unitPrice)%Qc in
       let invest (e' : Env) :=
         investmentId ← runTransaction e
           (investTx e' uid fundId fundName tokenAmount units phone);
         mret {| inv_success := true;
                 inv_message := "Successfully invested " +:+ pretty tokenAmount
                   +:+ " tokens in " +:+ fundName;
                 investmentId := Some investmentId |} in
       match phone with
       | Some phoneNumber =>
           if truthy phone then
             paymentResult ← simulateStkPush e phoneNumber tokenAmount;
             if negb (pay_success paymentResult) then
               mret {| inv_success := false;
                       inv_message := pay_message paymentResult;
                       investmentId := None |}
             else invest (tick e)
           else invest e
       | None => invest e
       end)
    (λ errorMessage,
       mret {| inv_success := false;
               inv_message := "Failed to invest: " +:+ errorMessage;
               investmentId := None |}).

Definition withdrawTx (e : Env) (uid : string) (amount' : Z) (phone : string)
    : Tx Z :=
  userDoc ← tx_get uid;
  match userDoc with
  | None => tx_throw "User not found"
  | Some userData =>
      let currentBalance := default 0 (tokensBalance userData) in
      if bool_decide (currentBalance < amount') then
        tx_throw "Insufficient balance"
      else
        let newBalance := currentBalance - amount' in
        updatedAt ← tx_instance_serverTimestamp e;
        tx_update uid (credit_balance newBalance updatedAt);;
        tx_set_transaction uid
          {| tx_uid := uid; tx_type := WITHDRAWAL; amount := - amount';
             balance := newBalance; timestamp := now e;
             metadata :=
               {| appPackage := None; appName := None; minutes := None;
                  mmfId := None; mmfName := None; phoneNumber := Some phone;
                  windowStart := None; windowEnd := None |} |};;
        mret newBalance
  end.

Definition withdrawTokens (e : Env) (uid : string) (amount' : Z)
    (phone : string) : Prog SpendResult :=
  tryCatch
    (if bool_decide (amount' ≤ 0) then
       mret {| success := false;
               message := "Withdrawal amount must be greater than 0";
               newBalance := 0 |}
     else if invalidPhone phone then
       mret {| success := false; message := "Invalid phone number";
               newBalance := 0 |}
     else
       sleep;;
       result ← runTransaction e (withdrawTx e uid amount' phone);
       mret {| success := true;
               message := "Successfully withdrew " +:+ pretty amount'
                 +:+ " tokens to " +:+ phone;
               newBalance := result |})
    (λ errorMessage,
       mret {| success := false;
               message := "Withdrawal failed: " +:+ errorMessage;
               newBalance := 0 |}).

Definition newerFirst (a b : Investment) : Prop :=
  inv_timestamp b ≤ inv_timestamp a.

#[global] Instance newerFirst_dec : RelDecision newerFirst.
Proof. intros a b. unfold newerFirst. apply _. Defined.

(** [orderBy ('timestamp', 'desc')] over the user's investments. *)
Definition getUserInvestments (e : Env) (uid : string) : Prog (list Investment) :=
  tryCatch
    (doc_get e (λ fs,
       merge_sort newerFirst (default [] (investments fs !! uid))))
    (λ _, mret []).

Definition getTotalInvested (e : Env) (uid : string) : Prog Z :=
  investments ← getUserInvestments e uid;
  mret (foldl (λ total inv, total + inv_amount inv) 0 investments).

Definition getInvestmentsByMMF (e : Env) (uid mmfId' : string)
    : Prog (list Investment) :=
  tryCatch
    (doc_get e (λ fs,
       merge_sort newerFirst
         (filter (λ inv, inv_mmfId inv = mmfId')
            (default [] (investments fs !! uid)))))
    (λ _, mret []).

Definition getTotalUnitsByMMF (e : Env) (uid mmfId' : string) : Prog Qc :=
  investments ← getInvestmentsByMMF e uid mmfId';
  mret (foldl (λ total inv, (total + units inv)%Qc) (Q2Qc 0) investments).

Definition getInvestmentSummary (e : Env) (uid : string)
    : Prog InvestmentSummary :=
  investments ← getUserInvestments e uid;
  let totalInvested := foldl (λ sum inv, sum + inv_amount inv) 0 investments in
  let uniqueMMFs := length (arrayFromSet (inv_mmfId <$> investments)) in
  let averageInvestment :=
    if bool_decide (0 < length investments)%nat
    then (Q2Qc (inject_Z totalInvested)
          / Q2Qc (inject_Z (Z.of_nat (length investments))))%Qc
    else Q2Qc 0 in
  mret {| totalInvested := totalInvested;
          totalInvestments := length investments;
          uniqueMMFs := uniqueMMFs;
          averageInvestment := averageInvestment |}.

(** [/[^0-9]/g]: the characters a phone number keeps. *)
Definition isDigit (c : ascii) : bool :=
  (48 <=? N_of_ascii c)%N && (N_of_ascii c <=? 57)%N.

Fixpoint digitsOnly (s : string) : string :=
  match s with
  | EmptyString => EmptyString
  | String c s' => if isDigit c then String c (digitsOnly s') else digitsOnly s'
  end.

Fixpoint allDigits (s : string) : bool :=
  match s with
  | EmptyString => true
  | String c s' => isDigit c && allDigits s'
  end.

Definition formatPhoneNumber (phoneNumber : string) : string :=
  let cleaned := digitsOnly phoneNumber in
  if String.prefix "0" cleaned then
    "254" +:+ String.substring 1 (String.length cleaned - 1) cleaned
  else if String.prefix "254" cleaned then cleaned
  else if String.prefix "7" cleaned && (String.length cleaned =? 9)%nat then
    "254" +:+ cleaned
  else cleaned.

(** [/^254[71]\d{8}$/.test (formatted)] *)
Definition isValidPhoneNumber (phoneNumber : string) : bool :=
  let formatted := formatPhoneNumber phoneNumber in
  match formatted with
  | String "2" (String "5" (String "4" (String c rest))) =>
      (bool_decide (c = "7"%char) || bool_decide (c = "1"%char))
      && (String.length rest =? 8)%nat && allDigits rest
  | _ => false
  end.

End WalletService.

(** ** Sequences of operations *)

Inductive Op :=
  | Award (uid : string) (startMillis endMillis : Z) (manualMinutes : option Z)
  | Purchase (uid : string) (tokenAmount : Z) (phone : string)
  | Unlock (uid pkg app : string)
  | Relock (uid : string)
  | Lock (uid pkg : string)
  | UnlockPermanently (uid pkg : string)
  | LockMultiple (uid : string) (pkgs : list string)
  | UnlockMultiple (uid : string) (pkgs : list string)
  | Invest (uid fundId fundName : string) (tokenAmount : Z) (unitPrice : Qc)
      (phone : option string)
  | Withdraw (uid : string) (amount' : Z) (phone : string).

(** The world an operation leaves behind, whatever it reports. *)
Definition exec {A} (p : Prog A) (w : World) : World := (run p w).1.

Definition perform (cfg : AppConfig) (e : Env) (op : Op) : World → World :=
  match op with
  | Award uid s t m => exec (RewardsService.awardTokensForWindow cfg e uid s t m)
  | Purchase uid n phone => exec (WalletService.purchaseTokens e uid n phone)
  | Unlock uid pkg app => exec (BlockerService.unlockApp cfg e uid pkg app)
  | Relock uid => exec (BlockerService.relockExpiredSessions e uid)
  | Lock uid pkg => exec (BlockerService.lockApp e uid pkg)
  | UnlockPermanently uid pkg => exec (BlockerService.unlockAppPermanently e uid pkg)
  | LockMultiple uid pkgs => exec (BlockerService.lockMultipleApps e uid pkgs)
  | UnlockMultiple uid pkgs =>
      exec (BlockerService.unlockMultipleAppsPermanently e uid pkgs)
  | Invest uid f n a p phone => exec (WalletService.investInMMF e uid f n a p phone)
  | Withdraw uid a phone => exec (WalletService.withdrawTokens e uid a phone)
  end.

Fixpoint performAll (cfg : AppConfig) (ops : list (Env * Op)) (w : World) : World :=
  match ops with
  | [] => w
  | (e, op) :: ops' => performAll cfg ops' (perform cfg e op w)
  end.

(** ** What a user's ledger holds *)

Definition balanceOf (uid : string) (fs : Firestore) : Z :=
  default 0 (users fs !! uid ≫= tokensBalance).

Definition entriesOf (uid : string) (fs : Firestore) : list Transaction :=
  default [] (transactions fs !! uid).

Definition positionsOf (uid : string) (fs : Firestore) : list Investment :=
  default [] (investments fs !! uid).

Definition lockedOf (uid : string) (fs : Firestore) : list string :=
  default [] (users fs !! uid ≫= lockedApps).

Definition sessionsOf (uid : string) (fs : Firestore) : list UnlockSession :=
  default [] (users fs !! uid ≫= unlockSessions).

Definition sumAmounts (ts : list Transaction) : Z :=
  foldr (λ t acc, amount t + acc) 0 ts.

(** An investment entry written on the payment path of [investInMMF]. *)
Definition externallyFunded (t : Transaction) : bool :=
  bool_decide (tx_type t = INVESTMENT) && truthy (phoneNumber (metadata t)).

Definition noFaults (e : Env) : Prop :=
  getFails e = false ∧ txFails e = false ∧ writeFails e = false
  ∧ nativeFails e = false.

(** ** Concurrent calls

    Two calls in flight at once: each [Await] is a point where the other
    may run.  The schedule names who takes the next atomic step ([true]
    for the first); once it is exhausted the first call runs to its end,
    then the second. *)

Definition step {A} (p : Prog A) (w : World) : World * Prog A :=
  match p with
  | Await io k => let '(w', o) := io w in (w', k o)
  | _ => (w, p)
  end.

Fixpoint interleave {A B} (sched : list bool) (p : Prog A) (q : Prog B)
    (w : World) : World * Outcome A * Outcome B :=
  match sched with
  | [] =>
      let '(w1, a) := run p w in
      let '(w2, b) := run q w1 in
      (w2, a, b)
  | true :: sched' => let '(w', p') := step p w in interleave sched' p' q w'
  | false :: sched' => let '(w', q') := step q w in interleave sched' p q' w'
  end.

(** What a caller can tell from the outcome of a call: it rejected, or it
    resolved with a result that says it did not go through. *)
Definition reportsFailure {A} (went : A → bool) (o : Outcome A) : Prop :=
  match o with
  | Rejected _ => True
  | Resolved a => went a = false
  end.

(** ** Minutes, answers and sample worlds *)

(** The minutes [awardTokensForWindow] works with. *)
Definition resolveMinutes (e : Env) (manualMinutes : option Z) : Z :=
  match manualMinutes with
  | Some m => m
  | None =>
      UsageService.getTotalMinutes
        (if android e then default [] (usageReply e) else [])
  end.

(** ** Sample environments and worlds *)

(** An Android device at time [t] on which every call goes through. *)
Definition calm (t : Z) : Env :=
  {| now := t; nowAgain := λ k, t + 1 + Z.of_nat k;
     android := true; getFails := false; txFails := false;
     writeFails := false; nativeFails := false; usageReply := Some [];
     paymentOk := true; stkSuffix := 7; freshId := "inv1";
     typeErrorText := "Cannot read property 'serverTimestamp' of undefined" |}.

Definition userWith (b : Z) (apps : list string) (ss : list UnlockSession)
    : UserDoc :=
  {| tokensBalance := Some b; lockedApps := Some apps;
     unlockSessions := Some ss; mmfPreference := None; updatedAt := None |}.

(** A database holding the single user ["u"] and nothing else. *)
Definition soleUser (u : UserDoc) : World :=
  {| db := {| users := {["u" := u]}; transactions := ∅; investments := ∅;
              processedWindows := ∅ |};
     blocker := [] |}.

(** The same environment with every read failing. *)
Definition getDown (e : Env) : Env :=
  {| now := now e; nowAgain := nowAgain e; android := android e;
     getFails := true;
     txFails := txFails e; writeFails := writeFails e;
     nativeFails := nativeFails e; usageReply := usageReply e;
     paymentOk := paymentOk e; stkSuffix := stkSuffix e; freshId := freshId e;
     typeErrorText := typeErrorText e |}.

Definition insufficientTokens (cfg : AppConfig) (b : Z) : SpendResult :=
  {| success := false; newBalance := b;
     message := "Insufficient tokens. You need " +:+ pretty (UNLOCK_COST_TOKENS cfg)
       +:+ " tokens but have " +:+ pretty b +:+ "." |}.

Definition unlockFailed : SpendResult :=
  {| success := false; newBalance := 0;
     message := "Failed to unlock app. Please try again." |}.

(** The sessions of a list that have expired at [t], and those still
    active. *)
Definition expiredAt (t : Z) (ss : list UnlockSession) : list UnlockSession :=
  filter (λ s, expiresAt s ≤ t) ss.

Definition activeAt (t : Z) (ss : list UnlockSession) : list UnlockSession :=
  filter (λ s, t < expiresAt s) ss.

(** The native module after a push of [apps]. *)
Definition pushed (e : Env) (apps : list string) (w : World) : World :=
  if android e then {| db := db w; blocker := apps |} else w.

Definition spendFailure (msg : string) : SpendResult :=
  {| success := false; message := msg; newBalance := 0 |}.

Definition investFailure (msg : string) : InvestResult :=
  {| inv_success := false; inv_message := msg; investmentId := None |}.

(** The part of an entry's amount that moved the spendable balance. *)
Definition spendable (t : Transaction) : Z :=
  if externallyFunded t then 0 else amount t.

(** An Android device at time [t] whose usage module measured [m]
    minutes in one application. *)
Definition measuring (t m : Z) : Env :=
  {| now := t; nowAgain := λ k, t + 1 + Z.of_nat k;
     android := true; getFails := false; txFails := false;
     writeFails := false; nativeFails := false;
     usageReply := Some [{| us_packageName := "com.x"; us_appName := "X";
                            us_minutes := m |}];
     paymentOk := true; stkSuffix := 7; freshId := "inv1";
     typeErrorText := "Cannot read property 'serverTimestamp' of undefined" |}.

(** A database holding the user ["u"] and one marker. *)
Definition soleUserMarked (u : UserDoc) (windowId : string) (processedAt : Z)
    : World :=
  {| db := {| users := {["u" := u]}; transactions := ∅; investments := ∅;
              processedWindows := {[windowId := processedAt]} |};
     blocker := [] |}.

Definition noAward : AwardResult := {| tokensAwarded := 0; totalMinutes := 0 |}.

(** ** The shape of the log *)

(** What an entry written for [uid] looks like, by its type. *)
Definition entryShape (cfg : AppConfig) (uid : string) (t : Transaction) : Prop :=
  tx_uid t = uid
  ∧ match tx_type t with
    | REWARD =>
        ∃ m, minutes (metadata t) = Some m
             ∧ amount t = RewardsService.calculateTokens cfg m
             ∧ amount t ≠ 0
    | UNLOCK =>
        amount t = - UNLOCK_COST_TOKENS cfg ∧ is_Some (appPackage (metadata t))
    | PURCHASE => 0 < amount t
    | INVESTMENT =>
        if truthy (phoneNumber (metadata t)) then 0 < amount t else amount t < 0
    | WITHDRAWAL => amount t < 0
    end.

(** Each entry's [balance] is the one before it moved by the entry's
    spendable amount, starting from [b]. *)
Fixpoint chained (b : Z) (ts : list Transaction) : Prop :=
  match ts with
  | [] => True
  | t :: ts' => balance t = b + spendable t ∧ chained (balance t) ts'
  end.

(** The [balance] of the newest entry, or [b] when there is none. *)
Definition closingBalance (b : Z) (ts : list Transaction) : Z :=
  default b (last (balance <$> ts)).

(** ** Window ids *)

(** The string has no underscore. *)
Fixpoint plain (s : string) : Prop :=
  match s with
  | EmptyString => True
  | String c s' => c ≠ "_"%char ∧ plain s'
  end.

(** ** Housekeeping of markers *)

Definition thirtyDays : Z := 30 * 24 * 60 * 60 * 1000.

(** The markers [cleanupOldWindows] can see at time [t]. *)
Definition oldMarkers (t : Z) (fs : Firestore) : list (string * Z) :=
  filter (λ d, d.2 < t - thirtyDays) (map_to_list (processedWindows fs)).

(** The ids it deletes. *)
Definition doomed (t : Z) (uid : string) (fs : Firestore) : list string :=
  fst <$> filter (λ d, RewardsService.startsWith d.1 uid = true)
            (take 500 (merge_sort RewardsService.olderFirst (oldMarkers t fs))).

(** ** Positions and the log *)

(** The tokens an investment entry stands for, whichever sign it was
    logged with. *)
Definition investedAmount (t : Transaction) : Z :=
  if truthy (phoneNumber (metadata t)) then amount t else - amount t.

Definition investmentEntries (uid : string) (fs : Firestore) : list Transaction :=
  filter (λ t, tx_type t = INVESTMENT) (entriesOf uid fs).

(** Positions and investment entries tell one story: an entry for each
    position, in commit order, with the same fund, tokens and time. *)
Definition inStep (uid : string) (fs : Firestore) : Prop :=
  (λ i, (inv_mmfId i, inv_amount i, inv_timestamp i)) <$> positionsOf uid fs
  = (λ t, (default "" (mmfId (metadata t)), investedAmount t, timestamp t))
      <$> investmentEntries uid fs.

Definition preferenceOf (uid : string) (fs : Firestore) : option string :=
  users fs !! uid ≫= mmfPreference.

(** The stored preference names the fund of the position committed last,
    if there is one. *)
Definition prefersLatest (uid : string) (fs : Firestore) : Prop :=
  ∀ i, last (positionsOf uid fs) = Some i →
       preferenceOf uid fs = Some (inv_mmfId i).

Definition sumZ (l : list Z) : Z := foldr Z.add 0 l.

(** ** The native module and the stored lock set *)

(** The user an operation is called for. *)
Definition opUser (op : Op) : string :=
  match op with
  | Award uid _ _ _ | Purchase uid _ _ | Unlock uid _ _ | Relock uid
  | Lock uid _ | UnlockPermanently uid _ | LockMultiple uid _
  | UnlockMultiple uid _ | Invest uid _ _ _ _ _ | Withdraw uid _ _ => uid
  end.

(** The native module holds the user's stored lock set. *)
Definition enforced (uid : string) (w : World) : Prop :=
  blocker w = lockedOf uid (db w).

(** ** The app store and the screen that edits the lock set
    (store/useAppStore.ts, screens/ManageAppsScreen.tsx) *)

Record InstalledApp := {
  ia_packageName : string;
  ia_appName : string;
  icon : option string;
  isLocked : bool
}.

(** The part of the store the lock set lives in. *)
Record AppState := {
  installedApps : list InstalledApp;
  st_lockedApps : list string
}.

Module UseAppStore.

(** [{...app, isLocked: lockedApps.includes (app.packageName)}] *)
Definition withLockStatus (lockedApps : list string) (app : InstalledApp)
    : InstalledApp :=
  {| ia_packageName := ia_packageName app; ia_appName := ia_appName app;
     icon := icon app;
     isLocked := bool_decide (ia_packageName app ∈ lockedApps) |}.

Definition setInstalledApps (apps : list InstalledApp) (st : AppState) : AppState :=
  let lockedApps := st_lockedApps st in
  {| installedApps := withLockStatus lockedApps <$> apps;
     st_lockedApps := lockedApps |}.

Definition setLockedApps (packageNames : list string) (st : AppState) : AppState :=
  {| installedApps := withLockStatus packageNames <$> installedApps st;
     st_lockedApps := packageNames |}.

Definition toggleAppLock (pkg : string) (st : AppState) : AppState :=
  let lockedApps := st_lockedApps st in
  let updatedLockedApps :=
    if bool_decide (pkg ∈ lockedApps) then filter (λ p, p ≠ pkg) lockedApps
    else lockedApps ++ [pkg] in
  {| installedApps := withLockStatus updatedLockedApps <$> installedApps st;
     st_lockedApps := updatedLockedApps |}.

Definition isAppLocked (pkg : string) (st : AppState) : bool :=
  bool_decide (pkg ∈ st_lockedApps st).

End UseAppStore.

Module ManageAppsScreen.

(** [handleToggleLock]: a locked app only opens the confirmation dialog;
    an unlocked one is locked in the database and then toggled in the
    store, unless the call rejected. *)
Definition handleToggleLock (e : Env) (uid : string) (app : InstalledApp)
    (st : AppState) (w : World) : AppState * World :=
  if isLocked app then (st, w)
  else
    match run (BlockerService.lockApp e uid (ia_packageName app)) w with
    | (w', Resolved _) => (UseAppStore.toggleAppLock (ia_packageName app) st, w')
    | (w', Rejected _) => (st, w')
    end.

(** [confirmUnlock] for the app the dialog was opened on. *)
Definition confirmUnlock (e : Env) (uid : string) (selectedApp : InstalledApp)
    (st : AppState) (w : World) : AppState * World :=
  match run (BlockerService.unlockAppPermanently e uid
               (ia_packageName selectedApp)) w with
  | (w', Resolved _) =>
      (UseAppStore.toggleAppLock (ia_packageName selectedApp) st, w')
  | (w', Rejected _) => (st, w')
  end.

End ManageAppsScreen.

(** Every flag of the store says what the store's lock list says. *)
Definition flagsFollow (st : AppState) : Prop :=
  Forall (λ app, isLocked app
                 = UseAppStore.isAppLocked (ia_packageName app) st)
    (installedApps st).

(** ** Phone numbers *)

(** Every character of the string is a 7-bit one, so that the string has
    as many characters as it has bytes. *)
Fixpoint sevenBit (s : string) : Prop :=
  match s with
  | EmptyString => True
  | String c s' => (N_of_ascii c < 128)%N ∧ sevenBit s'
  end.

(** ** Sample data *)

(** A log of user ["u"]: a reward for 120 minutes, a purchase, an
    investment from the balance and one paid for by phone. *)
Definition sampleLog : list Transaction :=
  [{| tx_uid := "u"; tx_type := REWARD; amount := 20; balance := 20;
      timestamp := 500;
      metadata := {| appPackage := None; appName := None; minutes := Some 120;
                     mmfId := None; mmfName := None; phoneNumber := None;
                     windowStart := Some 0; windowEnd := Some 3600000 |} |};
   {| tx_uid := "u"; tx_type := PURCHASE; amount := 80; balance := 100;
      timestamp := 1000;
      metadata := {| appPackage := None; appName := None; minutes := None;
                     mmfId := None; mmfName := None;
                     phoneNumber := Some "254712345678"; windowStart := None;
                     windowEnd := None |} |};
   {| tx_uid := "u"; tx_type := INVESTMENT; amount := -40; balance := 60;
      timestamp := 2000;
      metadata := {| appPackage := None; appName := None; minutes := None;
                     mmfId := Some "cic"; mmfName := Some "CIC";
                     phoneNumber := None; windowStart := None;
                     windowEnd := None |} |};
   {| tx_uid := "u"; tx_type := INVESTMENT; amount := 500; balance := 60;
      timestamp := 3000;
      metadata := {| appPackage := None; appName := None; minutes := None;
                     mmfId := Some "ncba"; mmfName := Some "NCBA";
                     phoneNumber := Some "254712345678"; windowStart := None;
                     windowEnd := None |} |}].

Definition samplePositions : list Investment :=
  [{| inv_uid := "u"; inv_mmfId := "cic"; inv_mmfName := "CIC";
      inv_amount := 40; units := Q2Qc 20; inv_timestamp := 2000 |};
   {| inv_uid := "u"; inv_mmfId := "ncba"; inv_mmfName := "NCBA";
      inv_amount := 500; units := Q2Qc 100; inv_timestamp := 3000 |}].

(** A database in which user ["u"] has that log and those positions,
    with the native module holding the stored lock set. *)
Definition sampleWorld : World :=
  {| db := {| users := {["u" := {| tokensBalance := Some 60;
                                    lockedApps := Some ["com.x"];
                                    unlockSessions := Some [];
                                    mmfPreference := Some "ncba";
                                    updatedAt := Some 3000 |}]};
              transactions := {["u" := sampleLog]};
              investments := {["u" := samplePositions]};
              processedWindows := ∅ |};
     blocker := ["com.x"] |}.

(** Markers of the users ["u1"] and ["u10"], two of them written before
    time 1000 and one at 5000000000. *)
Definition sampleMarkers : gmap string Z :=
  {["u1_0_3600000" := 100; "u10_0_3600000" := 200;
    "u1_4000000000_4003600000" := 5000000000]}.

Definition markedWorld : World :=
  {| db := {| users := ∅; transactions := ∅; investments := ∅;
              processedWindows := sampleMarkers |};
     blocker := [] |}.
(** * Properties *)

(** ** Running programs *)

Lemma run_bind {A B} (p : Prog A) (f : A → Prog B) w :
  run (p ≫= f) w =
  match run p w with
  | (w', Resolved a) => run (f a) w'
  | (w', Rejected err) => (w', Rejected err)
  end.
Proof.
  unfold mbind, Prog_bind. revert w.
  induction p as [a|err|X io k IH]; intros w; simpl; [done..|].
  destruct (io w) as [w' o]. apply IH.
Qed.

Lemma run_tryCatch {A} (p : Prog A) (h : string → Prog A) w :
  run (tryCatch p h) w =
  match run p w with
  | (w', Resolved a) => (w', Resolved a)
  | (w', Rejected err) => run (h err) w'
  end.
Proof.
  revert w. induction p as [a|err|X io k IH]; intros w; simpl; [done..|].
  destruct (io w) as [w' o]. apply IH.
Qed.

Lemma run_await {A} (io : World → World * Outcome A) w :
  run (await io) w = io w.
Proof. simpl. destruct (io w) as [w' [a|err]]; done. Qed.

Lemma run_ret {A} (a : A) w : run (mret a) w = (w, Resolved a).
Proof. done. Qed.

Lemma run_runTransaction {A} e (body : Tx A) w :
  run (runTransaction e body) w =
  if txFails e then (w, Rejected "Transaction failed")
  else match body (db w) with
       | Resolved (a, fs') => (with_db (λ _, fs') w, Resolved a)
       | Rejected err => (w, Rejected err)
       end.
Proof. unfold runTransaction. by rewrite run_await. Qed.

Lemma run_doc_get {A} e (read : Firestore → A) w :
  run (doc_get e read) w =
  if getFails e then (w, Rejected "Firestore unavailable")
  else (w, Resolved (read (db w))).
Proof. unfold doc_get. by rewrite run_await. Qed.

Lemma run_instance_serverTimestamp {A} e (k : Z → Prog A) w :
  run (instance_serverTimestamp e ≫= k) w = (w, Rejected (typeErrorText e)).
Proof. done. Qed.

Lemma run_window_set e windowId w :
  run (window_set e windowId) w = (w, Rejected (typeErrorText e)).
Proof. done. Qed.

Lemma with_db_id w : with_db (λ _, db w) w = w.
Proof. by destruct w. Qed.

Lemma run_sleep w : run sleep w = (w, Resolved tt).
Proof. done. Qed.

(** ** RewardsService *)

Section rewards.
Import RewardsService.
Context (cfg : AppConfig).

Lemma run_isWindowProcessed e windowId w :
  run (isWindowProcessed e windowId) w =
  (w, Resolved (if getFails e then false
                else bool_decide (is_Some (processedWindows (db w) !! windowId)))).
Proof.
  unfold isWindowProcessed. rewrite run_tryCatch, run_bind, run_doc_get.
  by destruct (getFails e).
Qed.

Lemma run_markWindowProcessed e windowId w :
  run (markWindowProcessed e windowId) w = (w, Rejected (typeErrorText e)).
Proof.
  unfold markWindowProcessed. by rewrite run_tryCatch, run_window_set.
Qed.

Lemma run_getUsageStats e s t w :
  run (UsageService.getUsageStats e s t) w =
  (w, Resolved (if android e then default [] (usageReply e) else [])).
Proof.
  unfold UsageService.getUsageStats. destruct (android e); [|done]. simpl.
  by destruct (usageReply e).
Qed.

(** The update function of the award never gets to its writes. *)
Lemma awardTx_eq e uid tokens mins s t fs :
  awardTx e uid tokens mins s t fs =
  match users fs !! uid with
  | None => Rejected "User not found"
  | Some _ => Rejected (typeErrorText e)
  end.
Proof.
  unfold awardTx, mbind, Tx_bind, tx_get.
  by destruct (users fs !! uid).
Qed.

(** The whole of [awardTokensForWindow], step by step. *)
Lemma run_awardTokensForWindow e uid s t manual w :
  let windowId := generateWindowId uid s t in
  let tokens := calculateTokens cfg (resolveMinutes e manual) in
  run (awardTokensForWindow cfg e uid s t manual) w =
  if negb (getFails e) && bool_decide (is_Some (processedWindows (db w) !! windowId))
  then (w, Resolved {| tokensAwarded := 0; totalMinutes := 0 |})
  else if tokens =? 0 then (w, Rejected (typeErrorText e))
  else if txFails e then (w, Rejected "Transaction failed")
  else match users (db w) !! uid with
       | None => (w, Rejected "User not found")
       | Some _ => (w, Rejected (typeErrorText e))
       end.
Proof.
  intros windowId tokens. unfold awardTokensForWindow.
  rewrite run_bind, run_isWindowProcessed.
  fold windowId.
  destruct (getFails e) eqn:Hg; simpl negb; simpl andb; cbv iota.
  2: destruct (bool_decide (is_Some (processedWindows (db w) !! windowId)));
       [done|].
  all: rewrite run_tryCatch, run_bind.
  all: assert (Hm : run (match manual with
           | Some m => mret m
           | None => stats ← UsageService.getUsageStats e s t;
                     mret (UsageService.getTotalMinutes stats)
           end) w = (w, Resolved (resolveMinutes e manual)))
       by (destruct manual; simpl resolveMinutes;
           [done|by rewrite run_bind, run_getUsageStats]).
  all: rewrite Hm; cbv zeta; fold tokens.
  all: destruct (tokens =? 0).
  all: rewrite ?run_bind, ?run_runTransaction, ?run_markWindowProcessed,
         ?awardTx_eq; try done.
  all: destruct (txFails e); [done|].
  all: by destruct (users (db w) !! uid).
Qed.

(** No call changes the world. *)
Lemma exec_awardTokensForWindow e uid s t manual w :
  exec (awardTokensForWindow cfg e uid s t manual) w = w.
Proof.
  unfold exec. rewrite run_awardTokensForWindow. cbv zeta.
  by repeat case_match.
Qed.
End rewards.
(** ** BlockerService *)

Section array_from_set.
Implicit Types xs seen : list string.

Lemma elem_of_setInsertAll x xs seen :
  x ∈ setInsertAll seen xs ↔ x ∈ xs ∧ x ∉ seen.
Proof.
  revert seen. induction xs as [|y xs IH]; intros seen; simpl.
  - rewrite elem_of_nil. tauto.
  - case_bool_decide as Hy.
    + rewrite IH, elem_of_cons. split; [tauto|].
      intros [[->|Hx] Hseen]; [contradiction|done].
    + rewrite !elem_of_cons, IH, not_elem_of_cons.
      destruct (decide (x = y)) as [->|Hne]; tauto.
Qed.

Lemma NoDup_setInsertAll xs seen : NoDup (setInsertAll seen xs).
Proof.
  revert seen. induction xs as [|y xs IH]; intros seen; simpl.
  - constructor.
  - case_bool_decide; [done|]. constructor; [|done].
    rewrite elem_of_setInsertAll, not_elem_of_cons. tauto.
Qed.

Lemma elem_of_arrayFromSet x xs : x ∈ arrayFromSet xs ↔ x ∈ xs.
Proof.
  unfold arrayFromSet. rewrite elem_of_setInsertAll, elem_of_nil. tauto.
Qed.

Lemma NoDup_arrayFromSet xs : NoDup (arrayFromSet xs).
Proof. apply NoDup_setInsertAll. Qed.
End array_from_set.

Section blocker.
Import BlockerService.
Context (cfg : AppConfig).

Lemma run_updateLockedApps e apps w :
  run (updateLockedApps e apps) w =
  if android e && nativeFails e then (w, Rejected "BlockerModule failed")
  else (pushed e apps w, Resolved tt).
Proof.
  unfold updateLockedApps, pushed. destruct (android e); simpl; [|done].
  by destruct (nativeFails e).
Qed.

(** The update function of [unlockApp] refuses an insufficient balance
    and otherwise never gets to its writes. *)
Lemma unlockTx_eq e uid pkg app fs :
  unlockTx cfg e uid pkg app fs =
  match users fs !! uid with
  | None => Rejected "User not found"
  | Some _ =>
      if bool_decide (balanceOf uid fs < UNLOCK_COST_TOKENS cfg) then
        Resolved (insufficientTokens cfg (balanceOf uid fs), fs)
      else Rejected (typeErrorText e)
  end.
Proof.
  unfold unlockTx, balanceOf, mbind at 1, Tx_bind at 1, tx_get.
  destruct (users fs !! uid) as [u|] eqn:Hu; [|done]. simpl.
  by case_bool_decide.
Qed.

Lemma run_unlockApp e uid pkg app w :
  run (unlockApp cfg e uid pkg app) w =
  if txFails e then (w, Resolved unlockFailed)
  else match users (db w) !! uid with
       | None => (w, Resolved unlockFailed)
       | Some _ =>
           let b := balanceOf uid (db w) in
           if bool_decide (b < UNLOCK_COST_TOKENS cfg) then
             (w, Resolved (insufficientTokens cfg b))
           else (w, Resolved unlockFailed)
       end.
Proof.
  unfold unlockApp.
  rewrite run_tryCatch, run_bind, run_runTransaction, unlockTx_eq.
  destruct (txFails e); [done|].
  destruct (users (db w) !! uid) as [u|] eqn:Hu; [|done].
  case_bool_decide; [|done].
  simpl. by rewrite with_db_id.
Qed.

(** [relockExpiredSessions] returns early, or throws while it builds its
    update and swallows the error. *)
Lemma run_relockExpiredSessions e uid w :
  run (relockExpiredSessions e uid) w = (w, Resolved tt).
Proof.
  unfold relockExpiredSessions.
  rewrite run_tryCatch, run_bind, run_doc_get.
  destruct (getFails e); [done|].
  destruct (users (db w) !! uid) as [u|]; [|done].
  cbv beta iota zeta.
  destruct (length _ =? 0)%nat; [done|].
  by rewrite run_instance_serverTimestamp.
Qed.

Lemma run_editLockedApps e uid (body : Tx unit) w :
  run (editLockedApps e uid body) w =
  if txFails e then (w, Rejected "Transaction failed")
  else match body (db w) with
       | Rejected err => (w, Rejected err)
       | Resolved (_, fs') =>
           let w1 := with_db (λ _, fs') w in
           if getFails e then (w1, Rejected "Firestore unavailable")
           else if android e && nativeFails e
           then (w1, Rejected "BlockerModule failed")
           else (pushed e (lockedOf uid fs') w1, Resolved tt)
       end.
Proof.
  unfold editLockedApps.
  rewrite run_tryCatch, run_bind, run_runTransaction.
  destruct (txFails e); [done|].
  destruct (body (db w)) as [[[] fs']|err]; [|done]. cbv zeta.
  rewrite run_bind, run_doc_get. destruct (getFails e); [done|].
  rewrite run_updateLockedApps. fold (lockedOf uid).
  by destruct (android e && nativeFails e).
Qed.

(** The update function of [lockApp] has nothing to write for a package
    that is locked already; in every other case, and in the three other
    edits, the update throws while its data is built. *)
Lemma lockAppTx_eq e uid pkg fs :
  lockAppTx e uid pkg fs =
  match users fs !! uid with
  | None => Rejected "User not found"
  | Some _ =>
      if bool_decide (pkg ∈ lockedOf uid fs) then Resolved (tt, fs)
      else Rejected (typeErrorText e)
  end.
Proof.
  unfold lockAppTx, lockedOf, mbind, Tx_bind, tx_get.
  destruct (users fs !! uid) as [u|]; [|done]. simpl.
  by case_bool_decide.
Qed.

Lemma unlockAppPermanentlyTx_eq e uid pkg fs :
  unlockAppPermanentlyTx e uid pkg fs =
  match users fs !! uid with
  | None => Rejected "User not found"
  | Some _ => Rejected (typeErrorText e)
  end.
Proof.
  unfold unlockAppPermanentlyTx, mbind, Tx_bind, tx_get.
  by destruct (users fs !! uid).
Qed.

Lemma lockMultipleAppsTx_eq e uid pkgs fs :
  lockMultipleAppsTx e uid pkgs fs =
  match users fs !! uid with
  | None => Rejected "User not found"
  | Some _ => Rejected (typeErrorText e)
  end.
Proof.
  unfold lockMultipleAppsTx, mbind, Tx_bind, tx_get.
  by destruct (users fs !! uid).
Qed.

Lemma unlockMultipleAppsPermanentlyTx_eq e uid pkgs fs :
  unlockMultipleAppsPermanentlyTx e uid pkgs fs =
  match users fs !! uid with
  | None => Rejected "User not found"
  | Some _ => Rejected (typeErrorText e)
  end.
Proof.
  unfold unlockMultipleAppsPermanentlyTx, mbind, Tx_bind, tx_get.
  by destruct (users fs !! uid).
Qed.

(** What a lock-set edit leaves: the database as it was, and the native
    module as it was or holding the stored list. *)
Lemma run_lockApp e uid pkg w :
  run (lockApp e uid pkg) w =
  if txFails e then (w, Rejected "Transaction failed")
  else match users (db w) !! uid with
       | None => (w, Rejected "User not found")
       | Some _ =>
           if bool_decide (pkg ∈ lockedOf uid (db w)) then
             if getFails e then (w, Rejected "Firestore unavailable")
             else if android e && nativeFails e
             then (w, Rejected "BlockerModule failed")
             else (pushed e (lockedOf uid (db w)) w, Resolved tt)
           else (w, Rejected (typeErrorText e))
       end.
Proof.
  unfold lockApp. rewrite run_editLockedApps, lockAppTx_eq.
  destruct (txFails e); [done|].
  destruct (users (db w) !! uid); [|done].
  case_bool_decide; [|done]. cbv zeta. by rewrite with_db_id.
Qed.

Lemma run_rejecting_edit e uid (body : Tx unit) w :
  body (db w) = match users (db w) !! uid with
                | None => Rejected "User not found"
                | Some _ => Rejected (typeErrorText e)
                end →
  ∃ err, run (editLockedApps e uid body) w = (w, Rejected err).
Proof.
  intros Hbody. rewrite run_editLockedApps, Hbody.
  destruct (txFails e); [by eexists|].
  destruct (users (db w) !! uid); by eexists.
Qed.

Lemma db_pushed e apps w : db (pushed e apps w) = db w.
Proof. unfold pushed. by destruct (android e). Qed.
End blocker.
(** ** WalletService *)

Section wallet.
Import WalletService.

Lemma run_simulateStkPush e phone n w :
  ∃ r, run (simulateStkPush e phone n) w = (w, Resolved r)
       ∧ pay_success r = paymentOk e
       ∧ (paymentOk e = false → pay_message r = "Payment failed. Please try again.").
Proof.
  unfold simulateStkPush. rewrite run_bind, run_sleep.
  destruct (paymentOk e); eexists; split_and!; done.
Qed.

(** The update functions of the wallet refuse what they refuse and
    otherwise never get to their writes. *)
Lemma purchaseTx_eq e uid n phone fs :
  purchaseTx e uid n phone fs =
  match users fs !! uid with
  | None => Rejected "User not found"
  | Some _ => Rejected (typeErrorText e)
  end.
Proof.
  unfold purchaseTx, mbind, Tx_bind, tx_get.
  by destruct (users fs !! uid).
Qed.

Lemma withdrawTx_eq e uid a phone fs :
  withdrawTx e uid a phone fs =
  match users fs !! uid with
  | None => Rejected "User not found"
  | Some _ =>
      if bool_decide (balanceOf uid fs < a) then Rejected "Insufficient balance"
      else Rejected (typeErrorText e)
  end.
Proof.
  unfold withdrawTx, balanceOf, mbind, Tx_bind, tx_get.
  destruct (users fs !! uid) as [u|]; [|done]. simpl.
  by case_bool_decide.
Qed.

Lemma investTx_eq e uid fundId fundName n units' phone fs :
  investTx e uid fundId fundName n units' phone fs =
  match users fs !! uid with
  | None => Rejected "User not found"
  | Some _ =>
      if negb (truthy phone) && bool_decide (balanceOf uid fs < n) then
        Rejected "Insufficient token balance"
      else Rejected (typeErrorText e)
  end.
Proof.
  unfold investTx, balanceOf, mbind, Tx_bind, tx_get.
  destruct (users fs !! uid) as [u|]; [|done]. simpl.
  by destruct (negb (truthy phone) && _).
Qed.

Lemma run_purchaseTokens e uid n phone w :
  run (purchaseTokens e uid n phone) w =
  if invalidPhone phone then (w, Resolved (spendFailure "Invalid phone number"))
  else if bool_decide (n ≤ 0) then
    (w, Resolved (spendFailure "Amount must be greater than 0"))
  else if negb (paymentOk e) then
    (w, Resolved (spendFailure "Payment failed. Please try again."))
  else (w, Resolved (spendFailure "Failed to purchase tokens. Please try again.")).
Proof.
  unfold purchaseTokens, spendFailure. rewrite run_tryCatch.
  destruct (invalidPhone phone); [done|].
  case_bool_decide; [done|].
  rewrite run_bind.
  destruct (run_simulateStkPush e phone n w) as (r & -> & Hr & Hmsg).
  rewrite Hr. destruct (paymentOk e); simpl negb; cbv iota.
  2: { by rewrite run_ret, Hmsg. }
  rewrite run_bind, run_runTransaction, purchaseTx_eq.
  destruct (txFails e); [done|].
  by destruct (users (db w) !! uid).
Qed.

Lemma run_withdrawTokens e uid a phone w :
  run (withdrawTokens e uid a phone) w =
  if bool_decide (a ≤ 0) then
    (w, Resolved (spendFailure "Withdrawal amount must be greater than 0"))
  else if invalidPhone phone then
    (w, Resolved (spendFailure "Invalid phone number"))
  else if txFails e then
    (w, Resolved (spendFailure ("Withdrawal failed: " +:+ "Transaction failed")))
  else match users (db w) !! uid with
       | None =>
           (w, Resolved (spendFailure ("Withdrawal failed: " +:+ "User not found")))
       | Some _ =>
           if bool_decide (balanceOf uid (db w) < a) then
             (w, Resolved (spendFailure
                             ("Withdrawal failed: " +:+ "Insufficient balance")))
           else
             (w, Resolved (spendFailure
                             ("Withdrawal failed: " +:+ typeErrorText e)))
       end.
Proof.
  unfold withdrawTokens, spendFailure. rewrite run_tryCatch.
  case_bool_decide; [done|].
  destruct (invalidPhone phone); [done|].
  rewrite run_bind, run_sleep, run_bind, run_runTransaction, withdrawTx_eq.
  destruct (txFails e); [done|].
  destruct (users (db w) !! uid); [|done].
  by case_bool_decide.
Qed.

Lemma run_investInMMF e uid fundId fundName n unitPrice phone w :
  run (investInMMF e uid fundId fundName n unitPrice phone) w =
  if bool_decide (n ≤ 0) then
    (w, Resolved (investFailure "Investment amount must be greater than 0"))
  else if bool_decide (unitPrice ≤ 0)%Qc then
    (w, Resolved (investFailure "Invalid unit price"))
  else if truthy phone && negb (paymentOk e) then
    (w, Resolved (investFailure "Payment failed. Please try again."))
  else if txFails e then
    (w, Resolved (investFailure ("Failed to invest: " +:+ "Transaction failed")))
  else match users (db w) !! uid with
       | None =>
           (w, Resolved (investFailure ("Failed to invest: " +:+ "User not found")))
       | Some _ =>
           if negb (truthy phone) && bool_decide (balanceOf uid (db w) < n) then
             (w, Resolved (investFailure
                             ("Failed to invest: " +:+ "Insufficient token balance")))
           else
             (w, Resolved (investFailure
                             ("Failed to invest: " +:+ typeErrorText e)))
       end.
Proof.
  unfold investInMMF, investFailure. rewrite run_tryCatch.
  case_bool_decide; [done|].
  case_bool_decide; [done|].
  cbv zeta.
  assert (Hinvest : ∀ e',
    typeErrorText e' = typeErrorText e →
    run (investmentId ← runTransaction e
           (investTx e' uid fundId fundName n
              (Q2Qc (inject_Z n) / unitPrice)%Qc phone);
         mret {| inv_success := true;
                 inv_message := "Successfully invested " +:+ pretty n
                   +:+ " tokens in " +:+ fundName;
                 investmentId := Some investmentId |}) w =
    if txFails e then (w, Rejected "Transaction failed")
    else match users (db w) !! uid with
         | None => (w, Rejected "User not found")
         | Some _ =>
             if negb (truthy phone) && bool_decide (balanceOf uid (db w) < n)
             then (w, Rejected "Insufficient token balance")
             else (w, Rejected (typeErrorText e))
         end).
  { intros e' He'. rewrite run_bind, run_runTransaction, investTx_eq, He'.
    destruct (txFails e); [done|].
    destruct (users (db w) !! uid); [|done].
    by destruct (negb (truthy phone) && _). }
  destruct phone as [p|].
  2: { change (truthy None) with false in *. cbv iota.
       rewrite (Hinvest e eq_refl). simpl andb. cbv iota.
       destruct (txFails e); [done|].
       destruct (users (db w) !! uid); [|done].
       by case_bool_decide. }
  unfold truthy in *. case_bool_decide as Hp; simpl andb; cbv iota.
  2: { rewrite (Hinvest e eq_refl).
       destruct (txFails e); [done|].
       destruct (users (db w) !! uid); [|done].
       by case_bool_decide. }
  rewrite run_bind.
  destruct (run_simulateStkPush e p n w) as (r & -> & Hr & Hmsg).
  rewrite Hr. destruct (paymentOk e); simpl negb; cbv iota.
  2: { by rewrite run_ret, Hmsg. }
  rewrite (Hinvest (tick e) eq_refl).
  destruct (txFails e); [done|].
  by destruct (users (db w) !! uid).
Qed.

Lemma run_getUserInvestments_down e uid w :
  getFails e = true →
  run (getUserInvestments e uid) w = (w, Resolved []).
Proof.
  intros Hg. unfold getUserInvestments.
  by rewrite run_tryCatch, run_doc_get, Hg.
Qed.
End wallet.
(** ** What the mutating entry points leave behind

    Every write of the three services is built with
    [firestoreInstance.FieldValue.serverTimestamp ()], and evaluating
    that throws: the database is the same before and after each of
    them.  The one thing that can change is what the native blocker
    holds, when [lockApp] finds its package locked already and pushes
    the stored list. *)

Section core.
Context (cfg : AppConfig).

Lemma exec_unlockApp e uid pkg app w :
  exec (BlockerService.unlockApp cfg e uid pkg app) w = w.
Proof.
  unfold exec. rewrite run_unlockApp.
  destruct (txFails e); [done|].
  destruct (users (db w) !! uid); [|done].
  cbv zeta. by case_bool_decide.
Qed.

Lemma exec_purchaseTokens e uid n phone w :
  exec (WalletService.purchaseTokens e uid n phone) w = w.
Proof.
  unfold exec. rewrite run_purchaseTokens.
  destruct (WalletService.invalidPhone phone); [done|].
  case_bool_decide; [done|].
  by destruct (negb (paymentOk e)).
Qed.

Lemma exec_withdrawTokens e uid a phone w :
  exec (WalletService.withdrawTokens e uid a phone) w = w.
Proof.
  unfold exec. rewrite run_withdrawTokens.
  case_bool_decide; [done|].
  destruct (WalletService.invalidPhone phone); [done|].
  destruct (txFails e); [done|].
  destruct (users (db w) !! uid); [|done].
  by case_bool_decide.
Qed.

Lemma exec_investInMMF e uid fundId fundName n unitPrice phone w :
  exec (WalletService.investInMMF e uid fundId fundName n unitPrice phone) w = w.
Proof.
  unfold exec. rewrite run_investInMMF.
  case_bool_decide; [done|].
  case_bool_decide; [done|].
  destruct (truthy phone && negb (paymentOk e)); [done|].
  destruct (txFails e); [done|].
  destruct (users (db w) !! uid); [|done].
  by destruct (negb (truthy phone) && _).
Qed.

Lemma exec_relockExpiredSessions e uid w :
  exec (BlockerService.relockExpiredSessions e uid) w = w.
Proof. unfold exec. by rewrite run_relockExpiredSessions. Qed.

Lemma exec_rejecting_edit e uid (body : Tx unit) w :
  body (db w) = match users (db w) !! uid with
                | None => Rejected "User not found"
                | Some _ => Rejected (typeErrorText e)
                end →
  exec (BlockerService.editLockedApps e uid body) w = w.
Proof.
  intros Hbody. unfold exec.
  by destruct (run_rejecting_edit e uid body w Hbody) as [err ->].
Qed.

Lemma exec_lockApp e uid pkg w :
  exec (BlockerService.lockApp e uid pkg) w = w
  ∨ (pkg ∈ lockedOf uid (db w)
     ∧ exec (BlockerService.lockApp e uid pkg) w = pushed e (lockedOf uid (db w)) w).
Proof.
  unfold exec. rewrite run_lockApp.
  destruct (txFails e); [by left|].
  destruct (users (db w) !! uid); [|by left].
  case_bool_decide; [|by left].
  destruct (getFails e); [by left|].
  destruct (android e && nativeFails e); [by left|].
  by right.
Qed.

(** No operation changes the database. *)
Lemma perform_db e op w : db (perform cfg e op w) = db w.
Proof.
  destruct op; simpl.
  - by rewrite exec_awardTokensForWindow.
  - by rewrite exec_purchaseTokens.
  - by rewrite exec_unlockApp.
  - by rewrite exec_relockExpiredSessions.
  - destruct (exec_lockApp e uid pkg w) as [->|[_ ->]]; [done|].
    apply db_pushed.
  - unfold BlockerService.unlockAppPermanently.
    rewrite exec_rejecting_edit; [done|].
    apply unlockAppPermanentlyTx_eq.
  - unfold BlockerService.lockMultipleApps.
    rewrite exec_rejecting_edit; [done|].
    apply lockMultipleAppsTx_eq.
  - unfold BlockerService.unlockMultipleAppsPermanently.
    rewrite exec_rejecting_edit; [done|].
    apply unlockMultipleAppsPermanentlyTx_eq.
  - by rewrite exec_investInMMF.
  - by rewrite exec_withdrawTokens.
Qed.

Lemma performAll_db ops w : db (performAll cfg ops w) = db w.
Proof.
  revert w. induction ops as [|[e op] ops IH]; intros w; [done|].
  simpl. by rewrite IH, perform_db.
Qed.

(** What an operation can do to the native blocker: nothing, or hand it
    the stored list of the user it acts for. *)
Lemma perform_blocker e op w :
  blocker (perform cfg e op w) = blocker w
  ∨ (∃ uid pkg, op = Lock uid pkg ∧ android e = true
       ∧ blocker (perform cfg e op w) = lockedOf uid (db w)).
Proof.
  destruct op; simpl;
    try (left;
         first [ by rewrite exec_awardTokensForWindow
               | by rewrite exec_purchaseTokens
               | by rewrite exec_unlockApp
               | by rewrite exec_relockExpiredSessions
               | by rewrite exec_investInMMF
               | by rewrite exec_withdrawTokens ]).
  - destruct (exec_lockApp e uid pkg w) as [->|[_ ->]]; [by left|].
    unfold pushed. destruct (android e) eqn:Ha; [|by left].
    right. by exists uid, pkg.
  - left. unfold BlockerService.unlockAppPermanently.
    rewrite exec_rejecting_edit; [done|]. apply unlockAppPermanentlyTx_eq.
  - left. unfold BlockerService.lockMultipleApps.
    rewrite exec_rejecting_edit; [done|]. apply lockMultipleAppsTx_eq.
  - left. unfold BlockerService.unlockMultipleAppsPermanently.
    rewrite exec_rejecting_edit; [done|]. apply unlockMultipleAppsPermanentlyTx_eq.
Qed.
End core.
(** ** Refused debits *)

(** C4. A debit larger than the balance is refused whole: [unlockApp],
    [withdrawTokens] and a balance-funded [investInMMF] resolve with a
    failure result and leave the world exactly as it was, so the balance
    is unchanged, no session is created and no entry is appended.  When
    nothing else is wrong with the call, the failure is the
    insufficient-balance one. *)
Theorem insufficient_balance_no_debit cfg e uid w :
  let b := balanceOf uid (db w) in
  let ready := txFails e = false ∧ is_Some (users (db w) !! uid) in
  (∀ pkg app,
     b < UNLOCK_COST_TOKENS cfg →
     ∃ r, run (BlockerService.unlockApp cfg e uid pkg app) w = (w, Resolved r)
          ∧ success r = false
          ∧ (ready → r = insufficientTokens cfg b))
  ∧ (∀ a phone,
       b < a →
       ∃ r, run (WalletService.withdrawTokens e uid a phone) w = (w, Resolved r)
            ∧ success r = false
            ∧ (ready → 0 < a → WalletService.invalidPhone phone = false →
               r = spendFailure ("Withdrawal failed: " +:+ "Insufficient balance")))
  ∧ (∀ fundId fundName n unitPrice phone,
       truthy phone = false →
       b < n →
       ∃ r, run (WalletService.investInMMF e uid fundId fundName n unitPrice phone) w
            = (w, Resolved r)
            ∧ inv_success r = false
            ∧ (ready → 0 < n → (0 < unitPrice)%Qc →
               r = investFailure
                     ("Failed to invest: " +:+ "Insufficient token balance"))).
Proof.
  intros b ready. subst b ready. split_and!.
  - intros pkg app Hlt. rewrite run_unlockApp.
    destruct (txFails e); [eexists; split_and!; [done..|by intros [? _]]|].
    destruct (users (db w) !! uid);
      [|eexists; split_and!; [done..|by intros [_ [? ?]]]].
    cbv zeta. rewrite bool_decide_eq_true_2 by done. by eexists.
  - intros a phone Hlt. rewrite run_withdrawTokens.
    case_bool_decide; [eexists; split_and!; [done..|intros; lia]|].
    destruct (WalletService.invalidPhone phone);
      [eexists; split_and!; [done..|by intros]|].
    destruct (txFails e); [eexists; split_and!; [done..|by intros [? _]]|].
    destruct (users (db w) !! uid);
      [|eexists; split_and!; [done..|by intros [_ [? ?]]]].
    rewrite bool_decide_eq_true_2 by done. by eexists.
  - intros fundId fundName n unitPrice phone Hp Hlt. rewrite run_investInMMF, Hp.
    simpl negb; simpl andb.
    rewrite (bool_decide_eq_true_2 (balanceOf uid (db w) < n)) by done.
    case_bool_decide; [eexists; split_and!; [done..|intros; lia]|].
    case_bool_decide as Hprice.
    { eexists; split_and!; [done..|]. intros _ _ Hpos.
      by apply Qclt_not_le in Hpos. }
    destruct (txFails e); [eexists; split_and!; [done..|by intros [? _]]|].
    destruct (users (db w) !! uid);
      [|eexists; split_and!; [done..|by intros [_ [? ?]]]].
    by eexists.
Qed.

Lemma insufficient_balance_no_debit_witness :
  let w := soleUser (userWith 15 ["com.x"] []) in
  ∃ r, run (BlockerService.unlockApp APP_CONFIG (calm 1000) "u" "com.x" "X") w
       = (w, Resolved r)
       ∧ success r = false.
Proof.
  intros w.
  destruct (proj1 (insufficient_balance_no_debit APP_CONFIG (calm 1000) "u" w)
              "com.x" "X") as (r & Hrun & Hr & _).
  { by vm_compute. }
  by exists r.
Defined.
(** ** Reward crediting *)

Section reward_claims.
Import RewardsService.

(** A window whose marker is not seen: the call throws, in
    [markWindowProcessed] when there is nothing to credit and in the
    transaction otherwise, and nothing is written. *)
Lemma award_unseen_rejects cfg e uid s t manual w :
  getFails e = true ∨ processedWindows (db w) !! generateWindowId uid s t = None →
  ∃ err, run (awardTokensForWindow cfg e uid s t manual) w = (w, Rejected err).
Proof.
  intros Hunseen. rewrite run_awardTokensForWindow. cbv zeta.
  assert (negb (getFails e)
          && bool_decide (is_Some (processedWindows (db w)
                                     !! generateWindowId uid s t)) = false) as ->.
  { destruct Hunseen as [->| ->]; [done|].
    rewrite (bool_decide_eq_false_2 (is_Some None)); [apply andb_false_r|].
    by intros [? ?]. }
  destruct (_ =? 0); [by eexists|].
  destruct (txFails e); [by eexists|].
  destruct (users (db w) !! uid); by eexists.
Qed.

(** C1, as the code has it.  When the marker of the window exists at
    the start of the call and its lookup succeeds, [awardTokensForWindow]
    resolves with [{tokensAwarded: 0, totalMinutes: 0}] and leaves the
    world exactly as it was: no ledger mutation, no entry, no marker
    write.  So of two calls with identical arguments, one after the
    other, the second credits nothing once the first has resolved and
    the second finds the marker. *)
Theorem processed_window_is_noop cfg uid s t manual w :
  (∀ e,
     is_Some (processedWindows (db w) !! generateWindowId uid s t) →
     getFails e = false →
     run (awardTokensForWindow cfg e uid s t manual) w = (w, Resolved noAward))
  ∧ (∀ e1 e2 w1 r1,
       run (awardTokensForWindow cfg e1 uid s t manual) w = (w1, Resolved r1) →
       getFails e2 = false →
       run (awardTokensForWindow cfg e2 uid s t manual) w1 = (w1, Resolved noAward)).
Proof.
  assert (Hnoop : ∀ e w0,
    is_Some (processedWindows (db w0) !! generateWindowId uid s t) →
    getFails e = false →
    run (awardTokensForWindow cfg e uid s t manual) w0 = (w0, Resolved noAward)).
  { intros e w0 Hmarker Hget. rewrite run_awardTokensForWindow. cbv zeta.
    by rewrite Hget, bool_decide_eq_true_2. }
  split; [intros e; apply Hnoop|].
  intros e1 e2 w1 r1 Hfirst Hget. apply Hnoop; [|done].
  rewrite run_awardTokensForWindow in Hfirst. cbv zeta in Hfirst.
  destruct (negb (getFails e1)) eqn:Hg1; simpl in Hfirst.
  - case_bool_decide as Hmarker; [by simplify_eq|].
    by repeat case_match.
  - by repeat case_match.
Qed.

Lemma processed_window_is_noop_witness :
  let w := soleUserMarked (userWith 0 [] []) "u_0_3600000" 4000000 in
  run (awardTokensForWindow APP_CONFIG (calm 5000000) "u" 0 3600000 (Some 120)) w
  = (w, Resolved noAward).
Proof.
  intros w.
  apply (proj1 (processed_window_is_noop APP_CONFIG "u" 0 3600000 (Some 120) w)
           (calm 5000000)); [|done].
  vm_compute. by eexists.
Defined.

(** C1 as stated fails when the lookup of the marker fails:
    [isWindowProcessed] catches the error and answers [false], so with
    the marker in place the call goes on to the crediting path and ends
    in a rejected promise instead of [{0, 0}]. *)
Lemma marker_lookup_failure_not_noop :
  let w := soleUserMarked (userWith 0 [] []) "u_0_3600000" 4000000 in
  let e := getDown (calm 5000000) in
  is_Some (processedWindows (db w) !! generateWindowId "u" 0 3600000)
  ∧ run (isWindowProcessed e (generateWindowId "u" 0 3600000)) w = (w, Resolved false)
  ∧ run (awardTokensForWindow APP_CONFIG e "u" 0 3600000 (Some 120)) w
    = (w, Rejected (typeErrorText e))
  ∧ run (awardTokensForWindow APP_CONFIG e "u" 0 3600000 (Some 120)) w
    ≠ (w, Resolved noAward).
Proof. vm_compute. split_and!; [by eexists|done..]. Qed.

(** C6.  The formula is the claimed one, and with 120 measured minutes
    [calculateTokens] gives 20, with 45 it gives 0.  But no reward is
    ever credited and no marker written: with 120 minutes the
    transaction's update function throws while it builds the balance
    update, with 45 minutes [markWindowProcessed] throws while it builds
    the marker; in both cases the call rejects and the user's record,
    the log and the markers are as before. *)
Theorem reward_computed_never_credited :
  let w := soleUser (userWith 0 [] []) in
  let award m := awardTokensForWindow APP_CONFIG (measuring 5000000 m) "u" 0 3600000 None in
  (∀ cfg m, calculateTokens cfg m = m `div` 60 * TOKENS_PER_HOUR cfg)
  ∧ resolveMinutes (measuring 5000000 120) None = 120
  ∧ calculateTokens APP_CONFIG 120 = 20
  ∧ run (award 120) w
    = (w, Rejected "Cannot read property 'serverTimestamp' of undefined")
  ∧ balanceOf "u" (db (exec (award 120) w)) = 0
  ∧ entriesOf "u" (db (exec (award 120) w)) = []
  ∧ resolveMinutes (measuring 5000000 45) None = 45
  ∧ calculateTokens APP_CONFIG 45 = 0
  ∧ run (award 45) w
    = (w, Rejected "Cannot read property 'serverTimestamp' of undefined")
  ∧ processedWindows (db (exec (award 45) w)) !! generateWindowId "u" 0 3600000
    = None.
Proof. by vm_compute. Qed.
End reward_claims.

(** ** Balance and log over sequences of operations *)

(** C2.  From a non-negative balance, the balance is non-negative after
    every operation of every sequence of reward credits, purchases,
    unlocks, reconciles, lock-set edits, investments and withdrawals,
    whatever arguments they are called with and whatever fails. *)
Theorem balance_never_negative cfg (ops : list (Env * Op)) w uid :
  0 ≤ balanceOf uid (db w) →
  ∀ k, 0 ≤ balanceOf uid (db (performAll cfg (take k ops) w)).
Proof. intros Hb k. by rewrite performAll_db. Qed.

Lemma balance_never_negative_witness :
  0 ≤ balanceOf "u"
        (db (performAll APP_CONFIG
               (take 3
                  [(calm 1000, Award "u" 0 3600000 (Some (-60)));
                   (calm 2000, Unlock "u" "com.x" "X");
                   (calm 3000, Withdraw "u" 50 "0712345678");
                   (calm 4000, Invest "u" "mmf1" "Fund" 30 1 None)])
               (soleUser (userWith 30 ["com.x"] [])))).
Proof.
  apply (balance_never_negative APP_CONFIG _ (soleUser (userWith 30 ["com.x"] [])) "u").
  by vm_compute.
Defined.

(** C3.  For a user who starts with balance 0 and an empty log, after
    every sequence of operations the signed amounts of the user's
    entries sum to the user's balance. *)
Theorem entries_sum_to_balance cfg (ops : list (Env * Op)) w uid :
  balanceOf uid (db w) = 0 →
  entriesOf uid (db w) = [] →
  let fs := db (performAll cfg ops w) in
  sumAmounts (entriesOf uid fs) = balanceOf uid fs.
Proof. intros Hb Hlog fs. subst fs. by rewrite performAll_db, Hlog, Hb. Qed.

Lemma entries_sum_to_balance_witness :
  let fs := db (performAll APP_CONFIG
                  [(calm 1000, Award "u" 0 3600000 (Some 120));
                   (calm 2000, Purchase "u" 50 "0712345678");
                   (calm 3000, Invest "u" "mmf1" "Fund" 30 1 (Some "0712345678"))]
                  (soleUser (userWith 0 [] []))) in
  sumAmounts (entriesOf "u" fs) = balanceOf "u" fs.
Proof.
  apply (entries_sum_to_balance APP_CONFIG _ (soleUser (userWith 0 [] [])) "u");
    by vm_compute.
Defined.

(** ** Unlocking *)

Section unlock_claims.
Import BlockerService.

Lemma unlockApp_affordable cfg e uid pkg app w :
  UNLOCK_COST_TOKENS cfg ≤ balanceOf uid (db w) →
  run (unlockApp cfg e uid pkg app) w = (w, Resolved unlockFailed).
Proof.
  intros Hb. rewrite run_unlockApp.
  destruct (txFails e); [done|].
  destruct (users (db w) !! uid); [|done].
  cbv zeta. by rewrite bool_decide_eq_false_2 by lia.
Qed.

(** C5.  With a balance that covers the cost, [unlockApp] does not go
    through: the update function of its transaction throws while it
    builds the update of the user's record, the transaction is
    abandoned, and the call resolves with the generic failure.  The
    balance is not debited, the package stays in [lockedApps], no
    session is appended and nothing is logged.  [relockExpiredSessions]
    never changes the record either, also when a session has expired. *)
Theorem unlock_does_not_go_through cfg e uid pkg app w :
  UNLOCK_COST_TOKENS cfg ≤ balanceOf uid (db w) →
  run (unlockApp cfg e uid pkg app) w = (w, Resolved unlockFailed)
  ∧ ∀ e' w', run (relockExpiredSessions e' uid) w' = (w', Resolved tt).
Proof.
  intros Hb. split; [by apply unlockApp_affordable|].
  intros e' w'. apply run_relockExpiredSessions.
Qed.

Lemma unlock_does_not_go_through_witness :
  let w := soleUser (userWith 100 ["com.x"] []) in
  let w' := soleUser (userWith 80 []
              [{| packageName := "com.x"; unlockedAt := 1000;
                  expiresAt := 3601000 |}]) in
  run (unlockApp APP_CONFIG (calm 1000) "u" "com.x" "X") w = (w, Resolved unlockFailed)
  ∧ balanceOf "u" (db w) = 100
  ∧ run (relockExpiredSessions (calm 3601001) "u") w' = (w', Resolved tt)
  ∧ lockedOf "u" (db w') = [].
Proof.
  intros w w'.
  destruct (unlock_does_not_go_through APP_CONFIG (calm 1000) "u" "com.x" "X" w)
    as [Hunlock Hrelock].
  { by vm_compute. }
  split_and!; [exact Hunlock|done|apply Hrelock|done].
Defined.

Lemma step_ret {A} (a : A) w : step (Ret a) w = (w, Ret a).
Proof. done. Qed.

(** One step takes [unlockApp] through its transaction; with a balance
    that covers the cost it is left with its answer. *)
Lemma step_unlockApp cfg e uid pkg app w :
  txFails e = false → is_Some (users (db w) !! uid) →
  UNLOCK_COST_TOKENS cfg ≤ balanceOf uid (db w) →
  step (unlockApp cfg e uid pkg app) w = (w, Ret unlockFailed).
Proof.
  intros Ht [u Hu] Hb.
  unfold unlockApp, runTransaction, await.
  unfold mbind at 1, Prog_bind at 1. simpl.
  rewrite Ht, unlockTx_eq, Hu.
  by rewrite bool_decide_eq_false_2 by lia.
Qed.

Lemma interleave_rets {A B} sched (a : A) (b : B) w :
  interleave sched (Ret a) (Ret b) w = (w, Resolved a, Resolved b).
Proof. induction sched as [|[] sched IH]; simpl; by rewrite ?IH. Qed.

Lemma interleave_unlock_ret {B} cfg sched e uid pkg app (b : B) w :
  txFails e = false → is_Some (users (db w) !! uid) →
  UNLOCK_COST_TOKENS cfg ≤ balanceOf uid (db w) →
  interleave sched (unlockApp cfg e uid pkg app) (Ret b) w
  = (w, Resolved unlockFailed, Resolved b).
Proof.
  intros Ht Hu Hb. induction sched as [|[] sched IH]; cbn [interleave].
  - by rewrite unlockApp_affordable.
  - rewrite step_unlockApp by done. apply interleave_rets.
  - by rewrite step_ret.
Qed.

Lemma interleave_ret_unlock {A} cfg sched e uid pkg app (a : A) w :
  txFails e = false → is_Some (users (db w) !! uid) →
  UNLOCK_COST_TOKENS cfg ≤ balanceOf uid (db w) →
  interleave sched (Ret a) (unlockApp cfg e uid pkg app) w
  = (w, Resolved a, Resolved unlockFailed).
Proof.
  intros Ht Hu Hb. induction sched as [|[] sched IH]; cbn [interleave].
  - cbn [run]. by rewrite unlockApp_affordable.
  - by rewrite step_ret.
  - rewrite step_unlockApp by done. apply interleave_rets.
Qed.

(** C7.  Two [unlockApp] calls of one user for different packages, in
    flight at once on a balance that covers the cost: under every
    schedule both resolve with the generic failure and the record is
    as before.  Neither succeeds and neither is told that the tokens
    are insufficient. *)
Theorem concurrent_unlocks_both_fail cfg sched e1 e2 uid pkg1 app1 pkg2 app2 w :
  txFails e1 = false → txFails e2 = false →
  is_Some (users (db w) !! uid) →
  UNLOCK_COST_TOKENS cfg ≤ balanceOf uid (db w) →
  interleave sched (unlockApp cfg e1 uid pkg1 app1) (unlockApp cfg e2 uid pkg2 app2) w
  = (w, Resolved unlockFailed, Resolved unlockFailed).
Proof.
  intros Ht1 Ht2 Hu Hb. destruct sched as [|[] sched]; cbn [interleave].
  - by rewrite !unlockApp_affordable.
  - rewrite step_unlockApp by done. by apply interleave_ret_unlock.
  - rewrite (step_unlockApp cfg e2) by done. by apply interleave_unlock_ret.
Qed.

Lemma concurrent_unlocks_both_fail_witness :
  let w := soleUser (userWith 20 ["com.a"; "com.b"] []) in
  interleave [true; false; false; true]
    (unlockApp APP_CONFIG (calm 1000) "u" "com.a" "A")
    (unlockApp APP_CONFIG (calm 1000) "u" "com.b" "B") w
  = (w, Resolved unlockFailed, Resolved unlockFailed)
  ∧ unlockFailed ≠ insufficientTokens APP_CONFIG 20
  ∧ success unlockFailed = false.
Proof.
  intros w. split_and!; [|done..].
  apply (concurrent_unlocks_both_fail APP_CONFIG [true; false; false; true]
           (calm 1000) (calm 1000) "u" "com.a" "A" "com.b" "B" w);
    [done|done|vm_compute; by eexists|by vm_compute].
Defined.
End unlock_claims.

(** ** Investing *)

Section invest_claims.
Import WalletService.

Lemma investInMMF_fails e uid fundId fundName n unitPrice phone w :
  ∃ r, run (investInMMF e uid fundId fundName n unitPrice phone) w = (w, Resolved r)
       ∧ inv_success r = false ∧ investmentId r = None.
Proof.
  rewrite run_investInMMF.
  case_bool_decide; [by eexists|].
  case_bool_decide; [by eexists|].
  destruct (truthy phone && negb (paymentOk e)); [by eexists|].
  destruct (txFails e); [by eexists|].
  destruct (users (db w) !! uid); [|by eexists].
  destruct (negb (truthy phone) && _); by eexists.
Qed.

(** C8.  A non-positive amount or unit price is refused before
    anything else happens, as claimed.  A balance-funded investment of
    a positive amount at a positive price from a balance that covers it
    does not go through: the update function throws while it builds the
    update of the user's record, and the call resolves with
    [success: false] and the error's text.  Nothing is debited, no
    entry is logged and no position is stored. *)
Theorem invest_from_balance_fails e uid fundId fundName n unitPrice w :
  (n ≤ 0 →
   run (investInMMF e uid fundId fundName n unitPrice None) w
   = (w, Resolved (investFailure "Investment amount must be greater than 0")))
  ∧ (0 < n → (unitPrice ≤ 0)%Qc →
     run (investInMMF e uid fundId fundName n unitPrice None) w
     = (w, Resolved (investFailure "Invalid unit price")))
  ∧ (0 < n → (0 < unitPrice)%Qc →
     txFails e = false → is_Some (users (db w) !! uid) →
     n ≤ balanceOf uid (db w) →
     run (investInMMF e uid fundId fundName n unitPrice None) w
     = (w, Resolved (investFailure ("Failed to invest: " +:+ typeErrorText e)))).
Proof.
  split_and!.
  - intros Hn. rewrite run_investInMMF. by rewrite bool_decide_eq_true_2.
  - intros Hn Hp. rewrite run_investInMMF.
    rewrite bool_decide_eq_false_2 by lia. by rewrite bool_decide_eq_true_2.
  - intros Hn Hp Ht [u Hu] Hb. rewrite run_investInMMF.
    rewrite bool_decide_eq_false_2 by lia.
    rewrite bool_decide_eq_false_2 by (by apply Qclt_not_le).
    rewrite Ht, Hu. cbn [truthy andb negb].
    by rewrite bool_decide_eq_false_2 by lia.
Qed.

Lemma invest_from_balance_fails_witness :
  let w := soleUser (userWith 500 [] []) in
  run (investInMMF (calm 1000) "u" "mmf1" "Fund" 100 (Q2Qc 50) None) w
  = (w, Resolved (investFailure
       ("Failed to invest: "
        +:+ "Cannot read property 'serverTimestamp' of undefined")))
  ∧ balanceOf "u" (db w) = 500.
Proof.
  intros w. split; [|done].
  apply (invest_from_balance_fails (calm 1000) "u" "mmf1" "Fund" 100 (Q2Qc 50) w);
    [done|done|done|vm_compute; by eexists|by vm_compute].
Defined.

End invest_claims.

(** ** What a caller is told *)

Lemma run_relockExpiredSessions_resolves e uid w :
  (run (BlockerService.relockExpiredSessions e uid) w).2 = Resolved tt.
Proof. by rewrite run_relockExpiredSessions. Qed.

(** C9, as the code has it.  A call that has a mutation to make and
    does not make it tells its caller: reward crediting for a window
    whose marker it does not see rejects; [unlockApp], [purchaseTokens],
    [withdrawTokens] and [investInMMF] resolve with [success: false];
    [lockApp] for a package that is not locked yet and the three other
    lock-set edits reject.  In each case the world is as before.
    [relockExpiredSessions] is the exception: it resolves with no value
    whatever happened.  The read-side queries resolve with an empty
    list or zero when their read fails. *)
Theorem mutation_failures_reported cfg e w uid :
  (∀ s t manual,
     getFails e = true
     ∨ processedWindows (db w) !! RewardsService.generateWindowId uid s t = None →
     ∃ err, run (RewardsService.awardTokensForWindow cfg e uid s t manual) w
            = (w, Rejected err))
  ∧ (∀ pkg app,
       ∃ r, run (BlockerService.unlockApp cfg e uid pkg app) w = (w, Resolved r)
            ∧ success r = false)
  ∧ (∀ n phone,
       ∃ r, run (WalletService.purchaseTokens e uid n phone) w = (w, Resolved r)
            ∧ success r = false)
  ∧ (∀ a phone,
       ∃ r, run (WalletService.withdrawTokens e uid a phone) w = (w, Resolved r)
            ∧ success r = false)
  ∧ (∀ fundId fundName n unitPrice phone,
       ∃ r, run (WalletService.investInMMF e uid fundId fundName n unitPrice phone) w
            = (w, Resolved r)
            ∧ inv_success r = false)
  ∧ (∀ pkg pkgs,
       (pkg ∉ lockedOf uid (db w) →
        ∃ err, run (BlockerService.lockApp e uid pkg) w = (w, Rejected err))
       ∧ (∃ err, run (BlockerService.unlockAppPermanently e uid pkg) w
                 = (w, Rejected err))
       ∧ (∃ err, run (BlockerService.lockMultipleApps e uid pkgs) w
                 = (w, Rejected err))
       ∧ (∃ err, run (BlockerService.unlockMultipleAppsPermanently e uid pkgs) w
                 = (w, Rejected err)))
  ∧ (∀ e' w', (run (BlockerService.relockExpiredSessions e' uid) w').2 = Resolved tt)
  ∧ (∀ e' w',
       getFails e' = true →
       run (WalletService.getUserInvestments e' uid) w' = (w', Resolved [])
       ∧ run (WalletService.getTotalInvested e' uid) w' = (w', Resolved 0)).
Proof.
  split_and!.
  - intros s t manual. apply award_unseen_rejects.
  - intros pkg app. rewrite run_unlockApp.
    destruct (txFails e); [by eexists|].
    destruct (users (db w) !! uid); [|by eexists].
    cbv zeta. case_bool_decide; by eexists.
  - intros n phone. rewrite run_purchaseTokens.
    destruct (WalletService.invalidPhone phone); [by eexists|].
    case_bool_decide; [by eexists|].
    destruct (negb (paymentOk e)); by eexists.
  - intros a phone. rewrite run_withdrawTokens.
    case_bool_decide; [by eexists|].
    destruct (WalletService.invalidPhone phone); [by eexists|].
    destruct (txFails e); [by eexists|].
    destruct (users (db w) !! uid); [|by eexists].
    case_bool_decide; by eexists.
  - intros fundId fundName n unitPrice phone.
    destruct (investInMMF_fails e uid fundId fundName n unitPrice phone w)
      as (r & Hrun & Hr & _).
    by exists r.
  - intros pkg pkgs. split_and!.
    + intros Hpkg. rewrite run_lockApp.
      destruct (txFails e); [by eexists|].
      destruct (users (db w) !! uid); [|by eexists].
      rewrite bool_decide_eq_false_2 by done. by eexists.
    + apply run_rejecting_edit, unlockAppPermanentlyTx_eq.
    + apply run_rejecting_edit, lockMultipleAppsTx_eq.
    + apply run_rejecting_edit, unlockMultipleAppsPermanentlyTx_eq.
  - intros e' w'. apply run_relockExpiredSessions_resolves.
  - intros e' w' Hg. split; [by apply run_getUserInvestments_down|].
    unfold WalletService.getTotalInvested.
    by rewrite run_bind, run_getUserInvestments_down.
Qed.

Lemma mutation_failures_reported_witness :
  let w := soleUser (userWith 100 ["com.x"] []) in
  (∃ err, run (RewardsService.awardTokensForWindow APP_CONFIG (calm 1000) "u" 0 3600000
                 (Some 120)) w = (w, Rejected err))
  ∧ (∃ r, run (BlockerService.unlockApp APP_CONFIG (calm 1000) "u" "com.x" "X") w
          = (w, Resolved r) ∧ success r = false)
  ∧ ∃ err, run (BlockerService.lockApp (calm 1000) "u" "com.y") w = (w, Rejected err).
Proof.
  intros w.
  destruct (mutation_failures_reported APP_CONFIG (calm 1000) w "u")
    as (Haward & Hunlock & _ & _ & _ & Hlock & _).
  split_and!.
  - apply Haward. by right.
  - apply Hunlock.
  - apply (Hlock "com.y" []); by vm_compute.
Defined.

(** C9 as stated fails for the reconcile entry point: with an expired
    session waiting, [relockExpiredSessions] has an update to make,
    does not make it, and resolves with no value, exactly as it does
    when there is nothing to relock. *)
Lemma relock_swallows_failed_update :
  let w := soleUser (userWith 50 []
             [{| packageName := "com.a"; unlockedAt := 0; expiresAt := 500 |}]) in
  let idle := soleUser (userWith 50 ["com.a"] []) in
  let failed := run (BlockerService.relockExpiredSessions (calm 1000) "u") w in
  expiredAt 1000 (sessionsOf "u" (db w)) ≠ []
  ∧ failed = (w, Resolved tt)
  ∧ lockedOf "u" (db failed.1) = []
  ∧ ¬ reportsFailure (λ _, true) failed.2
  ∧ (run (BlockerService.relockExpiredSessions (calm 1000) "u") idle).2 = failed.2.
Proof. vm_compute. by split_and!. Qed.
(** * Further properties of the services *)

(** ** The log over sequences of operations *)

(** X1.  The log is an audit chain.  For a user who starts with no
    entries, after any sequence of operations every entry's [balance] is
    the previous entry's [balance] (the starting balance for the first)
    moved by the entry's spendable amount, and the newest entry's [balance]
    is the stored [tokensBalance]. *)
Theorem log_is_audit_chain cfg (ops : list (Env * Op)) w uid :
  entriesOf uid (db w) = [] →
  let b0 := balanceOf uid (db w) in
  let fs := db (performAll cfg ops w) in
  chained b0 (entriesOf uid fs)
  ∧ balanceOf uid fs = closingBalance b0 (entriesOf uid fs).
Proof.
  intros Hempty b0 fs. subst b0 fs. by rewrite performAll_db, Hempty.
Qed.

Lemma log_is_audit_chain_witness :
  let ops :=
    [(calm 1000, Purchase "u" 200 "254712345678");
     (calm 2000, Invest "u" "cic_mmf" "CIC" 100 (Q2Qc 50) (Some "254712345678"));
     (calm 3000, Unlock "u" "com.x" "X");
     (calm 4000, Withdraw "u" 30 "254712345678")] in
  let fs := db (performAll APP_CONFIG ops (soleUser (userWith 0 ["com.x"] []))) in
  chained 0 (entriesOf "u" fs)
  ∧ balanceOf "u" fs = closingBalance 0 (entriesOf "u" fs).
Proof.
  intros ops fs.
  apply (log_is_audit_chain APP_CONFIG ops (soleUser (userWith 0 ["com.x"] [])) "u").
  by vm_compute.
Defined.

(** X2.  Every entry the services write for a user carries that user's
    uid and the sign of its type: a reward is [calculateTokens] of the
    minutes it records and is not 0, an unlock is exactly
    [- UNLOCK_COST_TOKENS] and names its package, a purchase is positive, a
    withdrawal negative, and an investment is positive when it was paid for
    externally and negative when it came from the balance. *)
Theorem entries_have_their_shape cfg (ops : list (Env * Op)) w uid :
  entriesOf uid (db w) = [] →
  Forall (entryShape cfg uid) (entriesOf uid (db (performAll cfg ops w))).
Proof. intros Hempty. by rewrite performAll_db, Hempty. Qed.

Lemma entries_have_their_shape_witness :
  let ops :=
    [(calm 1000, Award "u" 0 3600000 (Some 150));
     (calm 3000, Unlock "u" "com.x" "X")] in
  let fs := db (performAll APP_CONFIG ops (soleUser (userWith 0 ["com.x"] []))) in
  Forall (entryShape APP_CONFIG "u") (entriesOf "u" fs).
Proof.
  intros ops fs.
  apply (entries_have_their_shape APP_CONFIG ops
           (soleUser (userWith 0 ["com.x"] [])) "u").
  by vm_compute.
Defined.

(** ** Positions and the preferred fund *)

(** X25.  Over any sequence of operations the stored [mmfPreference]
    names the fund of the position committed last, once there is one. *)
Theorem preference_names_latest_position cfg (ops : list (Env * Op)) w uid :
  prefersLatest uid (db w) → prefersLatest uid (db (performAll cfg ops w)).
Proof. by rewrite performAll_db. Qed.

Lemma preference_names_latest_position_witness :
  let w := performAll APP_CONFIG
             [(calm 4000, Invest "u" "cic" "CIC" 40 (Q2Qc 2) None);
              (calm 5000, Unlock "u" "com.x" "X")]
             sampleWorld in
  prefersLatest "u" (db w).
Proof.
  intros w. apply (preference_names_latest_position APP_CONFIG).
  by intros i [= <-].
Defined.

(** ** WalletService: reading the positions *)

Section portfolio.
Import WalletService.

Lemma run_getUserInvestments e uid w :
  run (getUserInvestments e uid) w =
  (w, Resolved (if getFails e then []
                else merge_sort newerFirst (positionsOf uid (db w)))).
Proof.
  unfold getUserInvestments. rewrite run_tryCatch, run_doc_get.
  by destruct (getFails e).
Qed.

Lemma run_getInvestmentsByMMF e uid fund w :
  run (getInvestmentsByMMF e uid fund) w =
  (w, Resolved (if getFails e then []
                else merge_sort newerFirst
                       (filter (λ inv, inv_mmfId inv = fund)
                          (positionsOf uid (db w))))).
Proof.
  unfold getInvestmentsByMMF. rewrite run_tryCatch, run_doc_get.
  by destruct (getFails e).
Qed.

Lemma foldl_inv_amounts a (l : list Investment) :
  foldl (λ total inv, total + inv_amount inv) a l = a + sumZ (inv_amount <$> l).
Proof.
  unfold sumZ. revert a.
  induction l as [|i l IH]; intros a; cbn [foldl fmap list_fmap foldr]; [lia|].
  rewrite IH. lia.
Qed.

Lemma sumZ_Permutation l k : l ≡ₚ k → sumZ l = sumZ k.
Proof. unfold sumZ. induction 1; simpl; lia. Qed.

Lemma length_setInsertAll seen xs : (length (setInsertAll seen xs) ≤ length xs)%nat.
Proof.
  revert seen. induction xs as [|x xs IH]; intros seen; simpl; [done|].
  case_bool_decide; simpl.
  - specialize (IH seen). lia.
  - specialize (IH (x :: seen)). lia.
Qed.

(** X26.  What the portfolio reads report is what the log says.  After
    any sequence of operations, [getInvestmentSummary] and
    [getTotalInvested] resolve with the same total, which is the sum of
    the tokens of the investment entries of the log, and the number of
    investments is the number of those entries; the funds counted are no
    more than the investments, and none exactly when there is no
    investment. *)
Theorem portfolio_matches_log cfg (ops : list (Env * Op)) e uid w :
  let w' := performAll cfg ops w in
  inStep uid (db w) → getFails e = false →
  ∃ summary,
    run (getInvestmentSummary e uid) w' = (w', Resolved summary)
    ∧ run (getTotalInvested e uid) w' = (w', Resolved (totalInvested summary))
    ∧ totalInvested summary
      = sumZ (investedAmount <$> investmentEntries uid (db w'))
    ∧ totalInvestments summary = length (investmentEntries uid (db w'))
    ∧ (uniqueMMFs summary ≤ totalInvestments summary)%nat
    ∧ (uniqueMMFs summary = 0%nat ↔ totalInvestments summary = 0%nat).
Proof.
  intros w' Hin Hg.
  assert (Hstep : inStep uid (db w')) by (subst w'; by rewrite performAll_db).
  unfold inStep in Hstep.
  assert (Hamounts : inv_amount <$> positionsOf uid (db w')
                     = investedAmount <$> investmentEntries uid (db w')).
  { apply (f_equal (fmap (λ x : string * Z * Z, x.1.2))) in Hstep.
    by rewrite <-!list_fmap_compose in Hstep. }
  assert (Hlen : length (positionsOf uid (db w'))
                 = length (investmentEntries uid (db w'))).
  { apply (f_equal length) in Hstep. by rewrite !length_fmap in Hstep. }
  unfold getInvestmentSummary, getTotalInvested.
  rewrite !run_bind, run_getUserInvestments, Hg. cbv zeta. rewrite !run_ret.
  set (sorted := merge_sort newerFirst (positionsOf uid (db w'))).
  assert (Hperm : sorted ≡ₚ positionsOf uid (db w'))
    by apply merge_sort_Permutation.
  eexists. split; [done|]. cbn [totalInvested totalInvestments uniqueMMFs].
  split_and!.
  - done.
  - rewrite foldl_inv_amounts, <-Hamounts, Z.add_0_l.
    apply sumZ_Permutation. by rewrite Hperm.
  - by rewrite Hperm.
  - unfold arrayFromSet.
    etrans; [apply length_setInsertAll|]. by rewrite length_fmap.
  - unfold arrayFromSet. destruct sorted as [|i l]; [done|].
    simpl. split; intros [=].
Qed.

Lemma portfolio_matches_log_witness :
  let w := performAll APP_CONFIG
             [(calm 4000, Invest "u" "cic" "CIC" 40 (Q2Qc 2) None);
              (calm 5000, Withdraw "u" 10 "254712345678")]
             sampleWorld in
  ∃ summary,
    run (getInvestmentSummary (calm 6000) "u") w = (w, Resolved summary)
    ∧ totalInvested summary = 540
    ∧ totalInvestments summary = 2%nat.
Proof.
  intros w.
  destruct (portfolio_matches_log APP_CONFIG
              [(calm 4000, Invest "u" "cic" "CIC" 40 (Q2Qc 2) None);
               (calm 5000, Withdraw "u" 10 "254712345678")]
              (calm 6000) "u" sampleWorld)
    as (summary & Hrun & _ & Htot & Hn & _); [done..|].
  exists summary. split; [exact Hrun|]. rewrite Htot, Hn. by vm_compute.
Defined.
End portfolio.

(** ** The native module and the stored lock set *)

(** X29.  On Android, as long as no call fails, the native module keeps
    holding the stored lock set of the user through any sequence of that
    user's operations. *)
Theorem enforcement_follows_store cfg (ops : list (Env * Op)) uid w :
  Forall (λ '(e, op), noFaults e ∧ android e = true ∧ opUser op = uid) ops →
  enforced uid w → enforced uid (performAll cfg ops w).
Proof.
  intros Hops. revert w.
  induction Hops as [|[e op] ops (He & Ha & <-) _ IH]; intros w Henf; [done|].
  simpl. apply IH. unfold enforced in *. rewrite perform_db.
  destruct (perform_blocker cfg e op w) as [->|(uid & pkg & -> & _ & ->)]; done.
Qed.

Lemma enforcement_follows_store_witness :
  let ops := [(calm 1000, Purchase "u" 100 "254712345678");
              (calm 2000, Lock "u" "com.x");
              (calm 3000, Unlock "u" "com.x" "X");
              (calm 9000000, Relock "u")] in
  let w := performAll APP_CONFIG ops sampleWorld in
  enforced "u" w ∧ blocker w = ["com.x"].
Proof.
  intros ops w. split; [|by vm_compute].
  apply (enforcement_follows_store APP_CONFIG ops "u"); [|done].
  repeat constructor.
Defined.

(** ** RewardsService: window ids *)

Lemma pretty_N_char_plain x : pretty_N_char x ≠ "_"%char.
Proof. unfold pretty_N_char. by repeat case_match. Qed.

Lemma pretty_N_go_plain x s : plain s → plain (pretty_N_go x s).
Proof.
  revert s. induction (N.lt_wf_0 x) as [x _ IH]; intros s Hs.
  destruct (decide (0 < x)%N) as [Hx|Hx].
  - rewrite pretty_N_go_step by done. apply IH.
    + by apply N.div_lt.
    + split; [apply pretty_N_char_plain|done].
  - assert (x = 0%N) as -> by lia. by rewrite pretty_N_go_0.
Qed.

Lemma pretty_N_plain (x : N) : plain (pretty x).
Proof.
  unfold pretty, pretty_N. case_decide; [by split|].
  by apply pretty_N_go_plain.
Qed.

Lemma pretty_Z_plain (x : Z) : plain (pretty x).
Proof.
  unfold pretty, pretty_Z. destruct x as [|p|p].
  - apply (pretty_N_plain 0).
  - apply (pretty_N_plain (Npos p)).
  - split; [done|]. apply (pretty_N_plain (Npos p)).
Qed.

Lemma string_app_nil (b : string) : "" +:+ b = b.
Proof. reflexivity. Qed.

Lemma string_app_cons c (a b : string) : String c a +:+ b = String c (a +:+ b).
Proof. reflexivity. Qed.

Lemma plain_no_underscore a b : ¬ plain (a +:+ String "_" b).
Proof.
  induction a as [|c a IH].
  - rewrite string_app_nil. by intros [? _].
  - rewrite string_app_cons. by intros [_ ?].
Qed.

(** A string is cut in one way only at its last underscore. *)
Lemma cut_at_last_underscore x1 y1 x2 y2 :
  plain y1 → plain y2 →
  x1 +:+ String "_" y1 = x2 +:+ String "_" y2 →
  x1 = x2 ∧ y1 = y2.
Proof.
  intros Hy1 Hy2. revert x2.
  induction x1 as [|c x1 IH]; intros [|c' x2];
    rewrite ?string_app_nil, ?string_app_cons; intros Heq; simplify_eq.
  - done.
  - by apply plain_no_underscore in Hy1.
  - by apply plain_no_underscore in Hy2.
  - destruct (IH x2) as [-> ->]; done.
Qed.

Lemma string_app_assoc (a b c : string) : (a +:+ b) +:+ c = a +:+ b +:+ c.
Proof.
  induction a as [|x a IH]; rewrite ?string_app_nil, ?string_app_cons;
    [done|by rewrite IH].
Qed.

(** X6.  [generateWindowId] is injective: two windows share a marker only
    if they are the same user, start and end. *)
Theorem generateWindowId_inj uid1 s1 e1 uid2 s2 e2 :
  RewardsService.generateWindowId uid1 s1 e1
  = RewardsService.generateWindowId uid2 s2 e2 →
  uid1 = uid2 ∧ s1 = s2 ∧ e1 = e2.
Proof.
  unfold RewardsService.generateWindowId. intros Heq.
  change (uid1 +:+ (String "_" (pretty s1) +:+ String "_" (pretty e1))
          = uid2 +:+ (String "_" (pretty s2) +:+ String "_" (pretty e2))) in Heq.
  rewrite <-!string_app_assoc in Heq.
  apply cut_at_last_underscore in Heq as [Heq He]; [|apply pretty_Z_plain..].
  apply cut_at_last_underscore in Heq as [-> Hs]; [|apply pretty_Z_plain..].
  by apply (inj pretty) in Hs as ->; apply (inj pretty) in He as ->.
Qed.

Lemma generateWindowId_inj_witness :
  RewardsService.generateWindowId "a_1" 2 3 = "a_1_2_3"
  ∧ ("a_1" = "a_1" ∧ (2 : Z) = 2 ∧ (3 : Z) = 3).
Proof.
  split; [reflexivity|].
  apply (generateWindowId_inj "a_1" 2 3 "a_1" 2 3). reflexivity.
Defined.

(** ** RewardsService: housekeeping of markers *)

Lemma run_batch_commit e ids w :
  run (batch_commit e ids) w =
  if writeFails e then (w, Rejected "Firestore unavailable")
  else (with_db (unmark_windows ids) w, Resolved tt).
Proof. unfold batch_commit. by rewrite run_await. Qed.

Lemma run_cleanupOldWindows e uid w :
  run (RewardsService.cleanupOldWindows e uid) w =
  if getFails e || writeFails e then (w, Resolved tt)
  else (with_db (unmark_windows (doomed (now e) uid (db w))) w, Resolved tt).
Proof.
  unfold RewardsService.cleanupOldWindows. cbv zeta.
  rewrite run_tryCatch, run_bind, run_doc_get.
  destruct (getFails e); [done|].
  rewrite run_batch_commit. by destruct (writeFails e).
Qed.

Lemma lookup_unmark_windows ids fs id :
  processedWindows (unmark_windows ids fs) !! id =
  if decide (id ∈ ids) then None else processedWindows fs !! id.
Proof.
  unfold unmark_windows. cbn [processedWindows].
  induction ids as [|i ids IH]; cbn [foldr].
  - destruct (decide (id ∈ [])) as [Hin|]; [by apply elem_of_nil in Hin|done].
  - rewrite lookup_delete, IH.
    destruct (decide (i = id)) as [->|Hne].
    + by rewrite (decide_True (P := id ∈ id :: ids)) by apply list_elem_of_here.
    + destruct (decide (id ∈ ids)) as [Hin|Hin].
      * by rewrite (decide_True (P := id ∈ i :: ids))
          by by apply list_elem_of_further.
      * rewrite (decide_False (P := id ∈ i :: ids)); [done|].
        rewrite elem_of_cons. intros [?|?]; congruence.
Qed.

Lemma elem_of_oldMarkers t fs id at_ :
  (id, at_) ∈ oldMarkers t fs
  ↔ processedWindows fs !! id = Some at_ ∧ at_ < t - thirtyDays.
Proof.
  unfold oldMarkers. rewrite list_elem_of_filter, elem_of_map_to_list.
  simpl. tauto.
Qed.

Lemma elem_of_doomed t uid fs id :
  id ∈ doomed t uid fs →
  ∃ at_, processedWindows fs !! id = Some at_ ∧ at_ < t - thirtyDays
         ∧ RewardsService.startsWith id uid = true.
Proof.
  unfold doomed. intros ([id' at_] & -> & Hin)%list_elem_of_fmap.
  apply list_elem_of_filter in Hin as [Hsw Hin].
  apply elem_of_take in Hin as (i & Hin%list_elem_of_lookup_2 & _).
  rewrite merge_sort_Permutation in Hin.
  apply elem_of_oldMarkers in Hin as [? ?]. by exists at_.
Qed.

Lemma doomed_complete t uid fs id at_ :
  (length (oldMarkers t fs) ≤ 500)%nat →
  processedWindows fs !! id = Some at_ → at_ < t - thirtyDays →
  RewardsService.startsWith id uid = true →
  id ∈ doomed t uid fs.
Proof.
  intros Hlen Hid Hold Hsw. unfold doomed.
  apply list_elem_of_fmap. exists (id, at_). split; [done|].
  apply list_elem_of_filter. split; [done|].
  rewrite take_ge by by rewrite merge_sort_Permutation.
  rewrite merge_sort_Permutation. by apply elem_of_oldMarkers.
Qed.

Lemma prefix_nil s : String.prefix "" s = true.
Proof. by destruct s. Qed.

Lemma prefix_app a b c :
  String.prefix a b = true → String.prefix a (b +:+ c) = true.
Proof.
  revert a. induction b as [|y b IH]; intros [|x a];
    rewrite ?string_app_nil, ?string_app_cons; simpl; try done.
  - intros _. apply prefix_nil.
  - destruct (Ascii.ascii_dec x y); [apply IH|done].
Qed.

(** X9.  [cleanupOldWindows] always resolves and touches nothing but
    markers; a marker is either kept as it was or deleted, and a deleted
    one was processed more than thirty days ago and has an id that starts
    with [uid]. *)
Theorem cleanupOldWindows_removes_only_old e uid w :
  ∃ w',
    run (RewardsService.cleanupOldWindows e uid) w = (w', Resolved tt)
    ∧ users (db w') = users (db w)
    ∧ transactions (db w') = transactions (db w)
    ∧ investments (db w') = investments (db w)
    ∧ blocker w' = blocker w
    ∧ ∀ id,
        processedWindows (db w') !! id = processedWindows (db w) !! id
        ∨ (processedWindows (db w') !! id = None
           ∧ ∃ at_, processedWindows (db w) !! id = Some at_
                    ∧ at_ < now e - thirtyDays
                    ∧ RewardsService.startsWith id uid = true).
Proof.
  rewrite run_cleanupOldWindows.
  destruct (getFails e || writeFails e).
  { exists w. split_and!; try done. by left. }
  eexists. split; [done|]. split_and!; try done.
  intros id. cbn [db with_db]. rewrite lookup_unmark_windows.
  destruct (decide (id ∈ doomed (now e) uid (db w))) as [Hin|]; [|by left].
  right. split; [done|]. by apply elem_of_doomed.
Qed.

(** X10.  Housekeeping does not keep users apart.  When no more than
    500 markers are older than thirty days and neither the query nor the
    batch fails, a cleanup for [uid] deletes every such marker whose id
    starts with [uid]: the markers of [uid], and those of every user
    [uid'] whose id extends [uid].  [isWindowProcessed] then answers
    [false] for the window of a deleted marker. *)
Theorem cleanup_crosses_users e e' uid uid' s t at_ w :
  let windowId := RewardsService.generateWindowId uid' s t in
  let w0 := exec (RewardsService.cleanupOldWindows e uid) w in
  String.prefix uid uid' = true →
  processedWindows (db w) !! windowId = Some at_ →
  at_ < now e - thirtyDays →
  (length (oldMarkers (now e) (db w)) ≤ 500)%nat →
  getFails e = false → writeFails e = false →
  run (RewardsService.isWindowProcessed e' windowId) w
  = (w, Resolved (negb (getFails e')))
  ∧ processedWindows (db w0) !! windowId = None
  ∧ run (RewardsService.isWindowProcessed e' windowId) w0 = (w0, Resolved false).
Proof.
  intros windowId w0 Hpre Hid Hold Hlen Hg Hw.
  assert (Hgone : processedWindows (db w0) !! windowId = None).
  { subst w0. unfold exec. rewrite run_cleanupOldWindows, Hg, Hw.
    cbn [orb fst db with_db]. rewrite lookup_unmark_windows.
    rewrite decide_True; [done|].
    eapply doomed_complete; [done..|].
    by apply prefix_app. }
  rewrite !run_isWindowProcessed, Hid, Hgone.
  split_and!; [|done|].
  - destruct (getFails e'); [done|].
    by rewrite bool_decide_eq_true_2.
  - destruct (getFails e'); [done|].
    rewrite bool_decide_eq_false_2; [done|]. by intros [? ?].
Qed.

Lemma cleanup_crosses_users_witness :
  let w0 := exec (RewardsService.cleanupOldWindows (calm 3000000000) "u1")
              markedWorld in
  processedWindows (db markedWorld) !! "u10_0_3600000" = Some 200
  ∧ processedWindows (db w0) !! "u10_0_3600000" = None
  ∧ processedWindows (db w0) !! "u1_4000000000_4003600000" = Some 5000000000.
Proof.
  intros w0. split; [by vm_compute|]. split; [|by vm_compute].
  apply (cleanup_crosses_users (calm 3000000000) (calm 3000000001)
           "u1" "u10" 0 3600000 200 markedWorld); try done.
  vm_compute. lia.
Defined.
(** ** RewardsService: reading the log *)

(** The [n] newest of [l]: what [orderBy ('timestamp', 'desc').limit (n)]
    selects, whatever the order among equal timestamps. *)
Lemma newest_take n (l : list Transaction) :
  let ts := take n (merge_sort RewardsService.newestFirst l) in
  ∃ rest,
    ts ++ rest ≡ₚ l
    ∧ length ts = Nat.min n (length l)
    ∧ StronglySorted RewardsService.newestFirst ts
    ∧ ∀ t r, t ∈ ts → r ∈ rest → timestamp r ≤ timestamp t.
Proof.
  intros ts. exists (drop n (merge_sort RewardsService.newestFirst l)).
  subst ts.
  pose proof (StronglySorted_merge_sort RewardsService.newestFirst l) as Hs.
  rewrite <-(take_drop n (merge_sort _ l)) in Hs.
  split_and!.
  - by rewrite take_drop, merge_sort_Permutation.
  - by rewrite length_take, merge_sort_Permutation.
  - by apply StronglySorted_app_1_l in Hs.
  - intros t r Ht Hr.
    apply (StronglySorted_app_1_elem_of _ _ _ t r Hs Ht Hr).
Qed.

Lemma run_getTransactionHistory e uid limit w :
  run (RewardsService.getTransactionHistory e uid limit) w =
  (w, Resolved
        (if getFails e then []
         else take (Z.to_nat (default 50 limit))
                (merge_sort RewardsService.newestFirst (entriesOf uid (db w))))).
Proof.
  unfold RewardsService.getTransactionHistory. cbv zeta.
  rewrite run_tryCatch, run_doc_get. by destruct (getFails e).
Qed.

Lemma run_getTransactionsByType e uid type limit w :
  run (RewardsService.getTransactionsByType e uid type limit) w =
  (w, Resolved
        (if getFails e then []
         else take (Z.to_nat (default 50 limit))
                (merge_sort RewardsService.newestFirst
                   (filter (λ t, tx_type t = type) (entriesOf uid (db w)))))).
Proof.
  unfold RewardsService.getTransactionsByType. cbv zeta.
  rewrite run_tryCatch, run_doc_get. by destruct (getFails e).
Qed.

Lemma foldl_amounts a (l : list Transaction) :
  foldl (λ sum tx, sum + amount tx) a l = a + sumAmounts l.
Proof.
  revert a. induction l as [|t l IH]; intros a; simpl; [lia|].
  rewrite IH. unfold sumAmounts. lia.
Qed.

Lemma sumAmounts_Permutation l k : l ≡ₚ k → sumAmounts l = sumAmounts k.
Proof.
  unfold sumAmounts. induction 1; simpl; lia.
Qed.

(** X11.  [getTransactionHistory] reads without writing and never
    rejects.  When the read fails it answers the empty list; otherwise it
    answers the [limit] newest entries of the user (50 when no limit is
    given, none for a limit below one), newest first: what it leaves out
    is no newer than anything it returns. *)
Theorem getTransactionHistory_newest e uid limit w :
  ∃ ts,
    run (RewardsService.getTransactionHistory e uid limit) w = (w, Resolved ts)
    ∧ if getFails e then ts = []
      else ∃ rest,
        ts ++ rest ≡ₚ entriesOf uid (db w)
        ∧ length ts = Nat.min (Z.to_nat (default 50 limit))
                        (length (entriesOf uid (db w)))
        ∧ StronglySorted RewardsService.newestFirst ts
        ∧ ∀ t r, t ∈ ts → r ∈ rest → timestamp r ≤ timestamp t.
Proof.
  rewrite run_getTransactionHistory. eexists. split; [done|].
  destruct (getFails e); [done|]. apply newest_take.
Qed.

(** X12.  [getTotalTokensEarned] is the sum of the amounts of the user's
    reward entries, as long as there are no more than 1000 of them and the
    read succeeds; it is 0 when the read fails. *)
Theorem getTotalTokensEarned_sums_rewards e uid w :
  let rewards := filter (λ t, tx_type t = REWARD) (entriesOf uid (db w)) in
  (length rewards ≤ 1000)%nat →
  run (RewardsService.getTotalTokensEarned e uid) w
  = (w, Resolved (if getFails e then 0 else sumAmounts rewards)).
Proof.
  intros rewards Hlen. unfold RewardsService.getTotalTokensEarned.
  rewrite run_tryCatch, run_bind, run_getTransactionsByType. cbv zeta.
  rewrite run_ret. destruct (getFails e); [done|].
  rewrite foldl_amounts. fold rewards.
  rewrite take_ge by (rewrite merge_sort_Permutation; simpl; lia).
  by rewrite (sumAmounts_Permutation _ _ (merge_sort_Permutation _ rewards)).
Qed.

Lemma getTotalTokensEarned_sums_rewards_witness :
  run (RewardsService.getTotalTokensEarned (calm 4000) "u") sampleWorld
  = (sampleWorld, Resolved 20).
Proof.
  rewrite (getTotalTokensEarned_sums_rewards (calm 4000) "u" sampleWorld).
  - by vm_compute.
  - vm_compute. lia.
Defined.

Lemma run_getEarningsStats e uid a b w :
  run (RewardsService.getEarningsStats e uid a b) w =
  (w, Resolved
        (if getFails e then {| es_tokens := 0; es_minutes := 0; es_count := 0 |}
         else foldl RewardsService.countReward
                {| es_tokens := 0; es_minutes := 0; es_count := 0 |}
                (filter (λ t, tx_type t = REWARD ∧ a ≤ timestamp t
                              ∧ timestamp t ≤ b)
                   (entriesOf uid (db w))))).
Proof.
  unfold RewardsService.getEarningsStats.
  rewrite run_tryCatch, run_bind, run_doc_get. by destruct (getFails e).
Qed.

Lemma foldl_countReward st (l : list Transaction) :
  foldl RewardsService.countReward st l
  = {| es_tokens := es_tokens st + sumAmounts l;
       es_minutes :=
         es_minutes st + sumZ ((λ t, default 0 (minutes (metadata t))) <$> l);
       es_count := es_count st + Z.of_nat (length l) |}.
Proof.
  revert st. induction l as [|t l IH]; intros [tok mins n].
  - unfold sumAmounts, sumZ. simpl. f_equal; lia.
  - cbn [foldl]. rewrite IH. unfold RewardsService.countReward, sumAmounts, sumZ.
    cbn [es_tokens es_minutes es_count foldr fmap list_fmap length].
    rewrite Nat2Z.inj_succ. f_equal; lia.
Qed.

(** X13.  [getEarningsStats] reads without writing and never rejects.
    It counts the reward entries by the time they were logged, not by
    the window they were earned in: when the read succeeds it answers
    the sum of the amounts, the sum of the recorded minutes (0 for an
    entry without minutes) and the number of the user's reward entries
    whose [timestamp] lies in the period; when the read fails it answers
    zeros. *)
Theorem getEarningsStats_counts_by_timestamp e uid a b w :
  let rewards := filter (λ t, tx_type t = REWARD ∧ a ≤ timestamp t
                              ∧ timestamp t ≤ b)
                   (entriesOf uid (db w)) in
  run (RewardsService.getEarningsStats e uid a b) w
  = (w, Resolved
          (if getFails e then {| es_tokens := 0; es_minutes := 0; es_count := 0 |}
           else {| es_tokens := sumAmounts rewards;
                   es_minutes :=
                     sumZ ((λ t, default 0 (minutes (metadata t))) <$> rewards);
                   es_count := Z.of_nat (length rewards) |})).
Proof.
  intros rewards. rewrite run_getEarningsStats.
  destruct (getFails e); [done|].
  by rewrite foldl_countReward.
Qed.
(** ** BlockerService: asking about sessions *)

Lemma run_getLockedApps e uid w :
  run (BlockerService.getLockedApps e uid) w =
  (w, Resolved (if getFails e then [] else lockedOf uid (db w))).
Proof.
  unfold BlockerService.getLockedApps, lockedOf.
  rewrite run_tryCatch, run_bind, run_doc_get.
  destruct (getFails e); [done|].
  by destruct (users (db w) !! uid).
Qed.

Lemma run_getActiveUnlockSessions e uid w :
  run (BlockerService.getActiveUnlockSessions e uid) w =
  (w, Resolved (if getFails e then []
                else activeAt (now e) (sessionsOf uid (db w)))).
Proof.
  unfold BlockerService.getActiveUnlockSessions, sessionsOf, activeAt.
  rewrite run_tryCatch, run_bind, run_doc_get.
  destruct (getFails e); [done|].
  by destruct (users (db w) !! uid).
Qed.

Lemma run_isAppUnlocked e uid pkg w :
  run (BlockerService.isAppUnlocked e uid pkg) w =
  (w, Resolved
        (existsb (λ s, bool_decide (packageName s = pkg))
           (if getFails e then []
            else activeAt (now e) (sessionsOf uid (db w))))).
Proof.
  unfold BlockerService.isAppUnlocked.
  by rewrite run_bind, run_getActiveUnlockSessions.
Qed.

Lemma run_getUnlockTimeRemaining e later uid pkg w :
  run (BlockerService.getUnlockTimeRemaining e later uid pkg) w =
  (w, Resolved
        match List.find (λ s, bool_decide (packageName s = pkg))
                (if getFails e then []
                 else activeAt (now e) (sessionsOf uid (db w))) with
        | None => 0
        | Some session => Z.max 0 (expiresAt session - later)
        end).
Proof.
  unfold BlockerService.getUnlockTimeRemaining.
  rewrite run_bind, run_getActiveUnlockSessions.
  by destruct (List.find _ _).
Qed.

Lemma existsb_active t pkg ss :
  existsb (λ s, bool_decide (packageName s = pkg)) (activeAt t ss) = true
  ↔ ∃ s, s ∈ ss ∧ packageName s = pkg ∧ t < expiresAt s.
Proof.
  rewrite existsb_exists. unfold activeAt. split.
  - intros (s & Hin & Hp). apply list_elem_of_In, list_elem_of_filter in Hin.
    apply bool_decide_eq_true in Hp. exists s. tauto.
  - intros (s & Hin & Hp & Hact). exists s. split.
    + apply list_elem_of_In, list_elem_of_filter. tauto.
    + by apply bool_decide_eq_true.
Qed.

(** X19.  [isAppUnlocked] and [getUnlockTimeRemaining] read without
    writing and never reject, and they agree: the time remaining is never
    negative; it is 0 when the app is not unlocked, and otherwise it is
    what is left at the second reading of the clock ([later]) of a stored
    session of the package that was active at the first.  Read at one
    instant, time remains exactly when the app is unlocked. *)
Theorem unlock_queries_agree e later uid pkg w :
  ∃ b r,
    run (BlockerService.isAppUnlocked e uid pkg) w = (w, Resolved b)
    ∧ run (BlockerService.getUnlockTimeRemaining e later uid pkg) w
      = (w, Resolved r)
    ∧ 0 ≤ r
    ∧ (if b then
         ∃ s, s ∈ sessionsOf uid (db w) ∧ packageName s = pkg
              ∧ now e < expiresAt s ∧ r = Z.max 0 (expiresAt s - later)
       else r = 0)
    ∧ (later = now e → (0 < r ↔ b = true)).
Proof.
  rewrite run_isAppUnlocked, run_getUnlockTimeRemaining.
  do 2 eexists. split; [done|]. split; [done|].
  set (ss := if getFails e then [] else activeAt (now e) (sessionsOf uid (db w))).
  assert (Hss : ∀ s, In s ss → s ∈ sessionsOf uid (db w) ∧ now e < expiresAt s).
  { intros s Hs. subst ss. destruct (getFails e); [done|].
    apply list_elem_of_In, list_elem_of_filter in Hs. tauto. }
  destruct (List.find _ ss) as [s|] eqn:Hfind.
  - apply find_some in Hfind as [Hin Hp].
    assert (existsb (λ s, bool_decide (packageName s = pkg)) ss = true) as ->.
    { apply existsb_exists. by exists s. }
    apply bool_decide_eq_true in Hp. destruct (Hss s Hin) as [Hs Hact].
    split_and!; [lia|by exists s|]. intros ->. split; [done|lia].
  - assert (existsb (λ s, bool_decide (packageName s = pkg)) ss = false) as ->.
    { apply not_true_is_false. intros (s & Hin & Hp)%existsb_exists.
      by rewrite (find_none _ _ Hfind s Hin) in Hp. }
    split_and!; [done..|]. intros _. split; [lia|done].
Qed.

(** ** BlockerService: editing the lock set *)

(** X17.  No lock-set edit changes the stored lock set.
    [unlockAppPermanently], [lockMultipleApps] and
    [unlockMultipleAppsPermanently] reject and leave the world as it
    was, whatever they are called with.  [lockApp] leaves the database
    as it was; it rejects for a package that is not in [lockedApps] yet,
    and when it resolves the package was there already and the native
    module has been handed the stored list.  It does resolve for such a
    package when the user exists and no call fails. *)
Theorem lock_set_edits_not_stored e uid pkg pkgs w :
  (∃ w' o,
     run (BlockerService.lockApp e uid pkg) w = (w', o)
     ∧ db w' = db w
     ∧ (pkg ∉ lockedOf uid (db w) → w' = w ∧ ∃ err, o = Rejected err)
     ∧ (o = Resolved tt →
        pkg ∈ lockedOf uid (db w) ∧ w' = pushed e (lockedOf uid (db w)) w)
     ∧ (noFaults e → is_Some (users (db w) !! uid) →
        pkg ∈ lockedOf uid (db w) → o = Resolved tt))
  ∧ (∃ err, run (BlockerService.unlockAppPermanently e uid pkg) w
            = (w, Rejected err))
  ∧ (∃ err, run (BlockerService.lockMultipleApps e uid pkgs) w
            = (w, Rejected err))
  ∧ (∃ err, run (BlockerService.unlockMultipleAppsPermanently e uid pkgs) w
            = (w, Rejected err)).
Proof.
  split_and!.
  - rewrite run_lockApp.
    destruct (txFails e) eqn:Ht; [|destruct (users (db w) !! uid) as [u|] eqn:Hu];
      [| |]; last first.
    + do 2 eexists. split_and!; [done..| |done|by intros _ [? ?]].
      intros _. split; [done|by eexists].
    + case_bool_decide as Hin;
        [destruct (getFails e) eqn:Hg;
           [|destruct (android e && nativeFails e) eqn:Hn]|].
      * do 2 eexists. split_and!; [done..|]. intros (? & _). congruence.
      * do 2 eexists. split_and!; [done..|].
        intros (_ & _ & _ & Hnat). by rewrite Hnat, andb_false_r in Hn.
      * do 2 eexists. split_and!; [done|apply db_pushed|done..].
      * do 2 eexists. split_and!; [done..| |done|done].
        intros _. split; [done|by eexists].
    + do 2 eexists. split_and!; [done..| |done|].
      * intros _. split; [done|by eexists].
      * intros (_ & ? & _). congruence.
  - apply run_rejecting_edit, unlockAppPermanentlyTx_eq.
  - apply run_rejecting_edit, lockMultipleAppsTx_eq.
  - apply run_rejecting_edit, unlockMultipleAppsPermanentlyTx_eq.
Qed.
(** ** WalletService: phone numbers *)

Section phone.
Import WalletService.

Lemma digitsOnly_app a b : digitsOnly (a +:+ b) = digitsOnly a +:+ digitsOnly b.
Proof.
  induction a as [|c a IH]; rewrite ?string_app_nil, ?string_app_cons; [done|].
  simpl. destruct (isDigit c); [|done]. by rewrite string_app_cons, IH.
Qed.

Lemma allDigits_digitsOnly s : allDigits (digitsOnly s) = true.
Proof.
  induction s as [|c s IH]; [done|]. simpl.
  destruct (isDigit c) eqn:Hc; [|done]. simpl. by rewrite Hc.
Qed.

Lemma digitsOnly_allDigits s : allDigits s = true → digitsOnly s = s.
Proof.
  induction s as [|c s IH]; [done|]. simpl.
  intros [-> Hs]%andb_true_iff. by rewrite IH.
Qed.

Lemma substring_all s : String.substring 0 (String.length s) s = s.
Proof. induction s as [|c s IH]; [done|]. simpl. by rewrite IH. Qed.

Lemma substring_tail c s :
  String.substring 1 (String.length (String c s) - 1) (String c s) = s.
Proof. simpl. rewrite Nat.sub_0_r. apply substring_all. Qed.

Lemma prefix_cons x y a b :
  String.prefix (String x a) (String y b)
  = if Ascii.ascii_dec x y then String.prefix a b else false.
Proof. done. Qed.

Lemma prefix_one x c :
  String.prefix (String x "") c = true → ∃ rest, c = String x rest.
Proof.
  destruct c as [|y c]; [done|]. rewrite prefix_cons.
  destruct (Ascii.ascii_dec x y) as [->|]; [by eexists|done].
Qed.

Lemma allDigits_app a b :
  allDigits (a +:+ b) = allDigits a && allDigits b.
Proof.
  induction a as [|c a IH]; rewrite ?string_app_nil, ?string_app_cons; [done|].
  simpl. by rewrite IH, andb_assoc.
Qed.

(** On a string of digits nothing is cleaned away. *)
Lemma formatPhoneNumber_digits c :
  allDigits c = true →
  formatPhoneNumber c =
  if String.prefix "0" c then
    "254" +:+ String.substring 1 (String.length c - 1) c
  else if String.prefix "254" c then c
  else if String.prefix "7" c && (String.length c =? 9)%nat then "254" +:+ c
  else c.
Proof.
  intros Hc. unfold formatPhoneNumber. by rewrite (digitsOnly_allDigits c Hc).
Qed.

Lemma formatPhoneNumber_cleans s :
  formatPhoneNumber s = formatPhoneNumber (digitsOnly s).
Proof.
  unfold formatPhoneNumber.
  by rewrite (digitsOnly_allDigits _ (allDigits_digitsOnly s)).
Qed.

Lemma formatPhoneNumber_254 r :
  allDigits r = true → formatPhoneNumber ("254" +:+ r) = "254" +:+ r.
Proof.
  intros Hr. rewrite formatPhoneNumber_digits by by rewrite allDigits_app, Hr.
  change ("254" +:+ r) with (String "2" (String "5" (String "4" r))).
  rewrite !prefix_cons. simpl. by rewrite prefix_nil.
Qed.

Lemma formatPhoneNumber_idem s :
  formatPhoneNumber (formatPhoneNumber s) = formatPhoneNumber s.
Proof.
  rewrite (formatPhoneNumber_cleans s).
  pose proof (allDigits_digitsOnly s) as Hc.
  generalize dependent (digitsOnly s). intros c Hc.
  rewrite (formatPhoneNumber_digits c Hc).
  destruct (String.prefix "0" c) eqn:H0.
  { apply prefix_one in H0 as [rest ->]. rewrite substring_tail.
    apply formatPhoneNumber_254. by apply andb_true_iff in Hc as [_ ?]. }
  destruct (String.prefix "254" c) eqn:H254.
  { by rewrite (formatPhoneNumber_digits c Hc), H0, H254. }
  destruct (String.prefix "7" c && (String.length c =? 9)%nat) eqn:H7.
  { by apply formatPhoneNumber_254. }
  by rewrite (formatPhoneNumber_digits c Hc), H0, H254, H7.
Qed.

(** X21.  [formatPhoneNumber] looks at the digits only and brings the
    spellings of a number to one: for the digits [d] of a subscriber
    number, a leading [0], a leading [+254] or [254], separators anywhere,
    and, when [d] has eight digits, a bare leading [7], all give [254]
    followed by the digits.  Formatting twice is formatting once. *)
Theorem formatPhoneNumber_normalises d s :
  allDigits d = true →
  formatPhoneNumber ("0" +:+ d) = "254" +:+ d
  ∧ formatPhoneNumber ("+254" +:+ d) = "254" +:+ d
  ∧ formatPhoneNumber ("254" +:+ d) = "254" +:+ d
  ∧ formatPhoneNumber ("254 " +:+ d) = "254" +:+ d
  ∧ (String.length d = 8%nat → formatPhoneNumber ("7" +:+ d) = "2547" +:+ d)
  ∧ formatPhoneNumber (formatPhoneNumber s) = formatPhoneNumber s.
Proof.
  intros Hd. split_and!.
  - rewrite formatPhoneNumber_digits by by rewrite allDigits_app, Hd.
    change ("0" +:+ d) with (String "0" d).
    rewrite prefix_cons, substring_tail. simpl. by rewrite prefix_nil.
  - rewrite formatPhoneNumber_cleans, digitsOnly_app, (digitsOnly_allDigits d Hd).
    by apply formatPhoneNumber_254.
  - by apply formatPhoneNumber_254.
  - rewrite formatPhoneNumber_cleans, digitsOnly_app, (digitsOnly_allDigits d Hd).
    by apply formatPhoneNumber_254.
  - intros Hlen.
    rewrite formatPhoneNumber_digits by by rewrite allDigits_app, Hd.
    change ("7" +:+ d) with (String "7" d).
    rewrite !prefix_cons. cbn [String.length]. rewrite Hlen. simpl.
    by rewrite prefix_nil.
  - apply formatPhoneNumber_idem.
Qed.

Lemma formatPhoneNumber_normalises_witness :
  WalletService.formatPhoneNumber "0712345678" = "254712345678"
  ∧ WalletService.formatPhoneNumber "+254712345678" = "254712345678"
  ∧ WalletService.formatPhoneNumber "712345678" = "254712345678".
Proof.
  destruct (formatPhoneNumber_normalises "712345678" "" eq_refl)
    as (H0 & Hplus & _).
  destruct (formatPhoneNumber_normalises "12345678" "" eq_refl)
    as (_ & _ & _ & _ & H7 & _).
  split_and!; [exact H0|exact Hplus|exact (H7 eq_refl)].
Defined.

Lemma isValidPhoneNumber_shape p :
  isValidPhoneNumber p = true →
  ∃ c rest,
    formatPhoneNumber p = String "2" (String "5" (String "4" (String c rest)))
    ∧ (c = "7"%char ∨ c = "1"%char)
    ∧ String.length rest = 8%nat ∧ allDigits rest = true.
Proof.
  unfold isValidPhoneNumber. cbv zeta.
  destruct (formatPhoneNumber p) as [|x0 [|x1 [|x2 [|c rest]]]]; try done.
  - by destruct x0 as [[] [] [] [] [] [] [] []].
  - destruct x0 as [[] [] [] [] [] [] [] []]; try done.
    by destruct x1 as [[] [] [] [] [] [] [] []].
  - destruct x0 as [[] [] [] [] [] [] [] []]; try done.
    destruct x1 as [[] [] [] [] [] [] [] []]; try done.
    by destruct x2 as [[] [] [] [] [] [] [] []].
  - destruct x0 as [[] [] [] [] [] [] [] []]; try done.
    destruct x1 as [[] [] [] [] [] [] [] []]; try done.
    destruct x2 as [[] [] [] [] [] [] [] []]; try done.
    intros [[Hc Hlen%Nat.eqb_eq]%andb_true_iff Hall]%andb_true_iff.
    exists c, rest. split_and!; try done.
    apply orb_true_iff in Hc as [?%bool_decide_eq_true|?%bool_decide_eq_true];
      tauto.
Qed.

(** X22.  A number [isValidPhoneNumber] accepts is, once formatted, twelve
    digits, still valid, and passes the check [purchaseTokens] and
    [withdrawTokens] make on it. *)
Theorem valid_number_passes_service_check p :
  isValidPhoneNumber p = true →
  let formatted := formatPhoneNumber p in
  String.length formatted = 12%nat
  ∧ allDigits formatted = true
  ∧ String.prefix "254" formatted = true
  ∧ isValidPhoneNumber formatted = true
  ∧ invalidPhone formatted = false.
Proof.
  intros Hv formatted.
  destruct (isValidPhoneNumber_shape p Hv) as (c & rest & Hf & Hc & Hlen & Hall).
  assert (Hc' : isDigit c = true) by by destruct Hc as [-> | ->].
  assert (Hidem : formatPhoneNumber formatted = formatted).
  { subst formatted. apply formatPhoneNumber_idem. }
  split_and!.
  - subst formatted. rewrite Hf. cbn [String.length]. by rewrite Hlen.
  - subst formatted. rewrite Hf. simpl. by rewrite Hc', Hall.
  - subst formatted. rewrite Hf. rewrite !prefix_cons. simpl.
    by rewrite ?prefix_nil.
  - unfold isValidPhoneNumber in *. cbv zeta in *. by rewrite Hidem.
  - unfold invalidPhone. subst formatted. rewrite Hf. cbn [String.length].
    rewrite Hlen. done.
Qed.

Lemma valid_number_passes_service_check_witness :
  isValidPhoneNumber "0712 345-678" = true
  ∧ formatPhoneNumber "0712 345-678" = "254712345678"
  ∧ invalidPhone (formatPhoneNumber "0712 345-678") = false.
Proof.
  split; [done|]. split; [done|].
  by destruct (valid_number_passes_service_check "0712 345-678" eq_refl)
    as (_ & _ & _ & _ & ?).
Defined.

Lemma formatPhoneNumber_no_digits p :
  digitsOnly p = "" → formatPhoneNumber p = "".
Proof. intros Hp. unfold formatPhoneNumber. by rewrite Hp. Qed.

(** X23.  The check the services make is weaker than the validator,
    which they never call: a string of ten 7-bit characters or more with
    no digit in it is not a valid number, yet it passes the check of
    [purchaseTokens], which goes on to request the payment: with a
    positive amount the answer is never ['Invalid phone number'], it is
    the payment's failure message or the failure of the purchase
    itself. *)
Theorem service_check_weaker_than_validator e uid n p w :
  sevenBit p → digitsOnly p = "" → (10 ≤ String.length p)%nat → 0 < n →
  isValidPhoneNumber p = false
  ∧ invalidPhone p = false
  ∧ ∃ r,
      run (purchaseTokens e uid n p) w = (w, Resolved r)
      ∧ message r ≠ "Invalid phone number"
      ∧ message r = (if paymentOk e
                     then "Failed to purchase tokens. Please try again."
                     else "Payment failed. Please try again.").
Proof.
  intros _ Hp Hlen Hn.
  assert (Hcheck : invalidPhone p = false).
  { unfold invalidPhone. apply orb_false_iff. split.
    - apply bool_decide_eq_false. intros ->. simpl in Hlen. lia.
    - apply bool_decide_eq_false. lia. }
  split_and!; [|done|].
  { unfold isValidPhoneNumber. by rewrite formatPhoneNumber_no_digits. }
  rewrite run_purchaseTokens, Hcheck.
  rewrite bool_decide_eq_false_2 by lia.
  destruct (paymentOk e); simpl negb; cbv iota; by eexists.
Qed.

Lemma service_check_weaker_than_validator_witness :
  let w := soleUser (userWith 0 [] []) in
  isValidPhoneNumber "not a number" = false
  ∧ run (purchaseTokens (calm 1000) "u" 100 "not a number") w
    = (w, Resolved (spendFailure "Failed to purchase tokens. Please try again.")).
Proof.
  intros w.
  destruct (service_check_weaker_than_validator (calm 1000) "u" 100
              "not a number" w) as (Hv & _ & r & Hrun & _ & Hmsg).
  { vm_compute. repeat split; lia. }
  { done. }
  { simpl. lia. }
  { done. }
  split; [exact Hv|]. by vm_compute.
Defined.

End phone.
(** ** WalletService: purchases, withdrawals and the positions of a fund *)

Section wallet_extras.
Import WalletService.

(** X3.  [purchaseTokens] never credits.  It always resolves, with
    [success: false] and [newBalance: 0], and leaves the world as it
    was.  When the phone number passes the length check, the amount is
    positive and the payment went through, the update function of the
    transaction throws and the answer is the fixed failure message: the
    tokens that were paid for are not credited. *)
Theorem purchaseTokens_never_credits e uid n phone w :
  ∃ r,
    run (purchaseTokens e uid n phone) w = (w, Resolved r)
    ∧ success r = false
    ∧ newBalance r = 0
    ∧ (invalidPhone phone = false → 0 < n → paymentOk e = true →
       message r = "Failed to purchase tokens. Please try again.").
Proof.
  rewrite run_purchaseTokens.
  destruct (invalidPhone phone); [by eexists|].
  case_bool_decide; [eexists; split_and!; [done..|intros; lia]|].
  destruct (paymentOk e); simpl negb; cbv iota; by eexists.
Qed.

(** X4.  [withdrawTokens] never debits.  It always resolves, with
    [success: false] and [newBalance: 0], and leaves the world as it
    was.  For a positive amount that the balance covers, a phone number
    that passes the length check and an existing user, the update
    function of the transaction throws and the answer carries the
    error's text. *)
Theorem withdrawTokens_never_debits e uid a phone w :
  ∃ r,
    run (withdrawTokens e uid a phone) w = (w, Resolved r)
    ∧ success r = false
    ∧ newBalance r = 0
    ∧ (0 < a → invalidPhone phone = false → txFails e = false →
       is_Some (users (db w) !! uid) → a ≤ balanceOf uid (db w) →
       message r = "Withdrawal failed: " +:+ typeErrorText e).
Proof.
  rewrite run_withdrawTokens.
  case_bool_decide; [eexists; split_and!; [done..|intros; lia]|].
  destruct (invalidPhone phone); [by eexists|].
  destruct (txFails e); [by eexists|].
  destruct (users (db w) !! uid);
    [|eexists; split_and!; [done..|by intros _ _ _ [? ?]]].
  case_bool_decide; [eexists; split_and!; [done..|intros; lia]|].
  by eexists.
Qed.

Lemma newerFirst_trans : Transitive newerFirst.
Proof. unfold newerFirst. intros a b c ??. lia. Qed.

Lemma newerFirst_total : Total newerFirst.
Proof. unfold newerFirst. intros a b. lia. Qed.

(** X27.  [getInvestmentsByMMF] reads without writing and never
    rejects.  When the read fails it answers the empty list; otherwise
    it answers the user's positions in the fund, all of them and no
    other, newest first. *)
Theorem getInvestmentsByMMF_selects_fund e uid fund w :
  ∃ l,
    run (getInvestmentsByMMF e uid fund) w = (w, Resolved l)
    ∧ if getFails e then l = []
      else l ≡ₚ filter (λ i, inv_mmfId i = fund) (positionsOf uid (db w))
           ∧ StronglySorted newerFirst l
           ∧ ∀ i, i ∈ l ↔ i ∈ positionsOf uid (db w) ∧ inv_mmfId i = fund.
Proof.
  rewrite run_getInvestmentsByMMF. eexists. split; [done|].
  destruct (getFails e); [done|]. split_and!.
  - apply merge_sort_Permutation.
  - apply (@StronglySorted_merge_sort _ _ _ newerFirst_trans newerFirst_total).
  - intros i. rewrite merge_sort_Permutation, list_elem_of_filter. tauto.
Qed.
End wallet_extras.
(** ** The app store and the screen *)

Section store.
Import UseAppStore ManageAppsScreen.

Lemma flagsFollow_withLockStatus pkgs (apps : list InstalledApp) :
  flagsFollow {| installedApps := withLockStatus pkgs <$> apps;
                 st_lockedApps := pkgs |}.
Proof.
  unfold flagsFollow, isAppLocked. cbn [installedApps st_lockedApps].
  apply Forall_fmap, Forall_forall. by intros app _.
Qed.

Lemma isAppLocked_toggle pkg q st :
  isAppLocked q (toggleAppLock pkg st) =
  if decide (q = pkg) then negb (isAppLocked pkg st) else isAppLocked q st.
Proof.
  unfold isAppLocked, toggleAppLock. cbn [st_lockedApps].
  destruct (decide (pkg ∈ st_lockedApps st)) as [Hin|Hin].
  - rewrite (bool_decide_eq_true_2 _ Hin).
    destruct (decide (q = pkg)) as [->|Hne]; simpl.
    + apply bool_decide_eq_false. rewrite list_elem_of_filter. tauto.
    + apply bool_decide_ext. rewrite list_elem_of_filter. tauto.
  - rewrite (bool_decide_eq_false_2 _ Hin).
    destruct (decide (q = pkg)) as [->|Hne]; simpl.
    + apply bool_decide_eq_true. rewrite elem_of_app, list_elem_of_singleton.
      tauto.
    + apply bool_decide_ext. rewrite elem_of_app, list_elem_of_singleton. tauto.
Qed.

(** X30.  In the store every action on the lock list leaves each app's
    flag saying what the list says, and a toggle flips the one package.
    On the screen, confirming the unlock of an app changes neither the
    store nor the database: [unlockAppPermanently] rejects and the
    store is not toggled.  [handleToggleLock] never changes the
    database; it leaves the store alone for an app shown as locked and
    for a package that is not in the stored lock set, and otherwise
    either leaves it or toggles the package. *)
Theorem screen_and_store_agree e uid app st w :
  let pkg := ia_packageName app in
  (∀ apps, flagsFollow (setInstalledApps apps st))
  ∧ (∀ pkgs, flagsFollow (setLockedApps pkgs st))
  ∧ flagsFollow (toggleAppLock pkg st)
  ∧ (∀ q, isAppLocked q (toggleAppLock pkg st)
          = if decide (q = pkg) then negb (isAppLocked pkg st)
            else isAppLocked q st)
  ∧ confirmUnlock e uid app st w = (st, w)
  ∧ (isLocked app = true → handleToggleLock e uid app st w = (st, w))
  ∧ (pkg ∉ lockedOf uid (db w) → handleToggleLock e uid app st w = (st, w))
  ∧ ∃ st' w',
      handleToggleLock e uid app st w = (st', w')
      ∧ db w' = db w
      ∧ (st' = st ∨ st' = toggleAppLock pkg st).
Proof.
  intros pkg.
  assert (Hlock : ∃ w' o,
    run (BlockerService.lockApp e uid pkg) w = (w', o)
    ∧ db w' = db w
    ∧ (pkg ∉ lockedOf uid (db w) → w' = w ∧ ∃ err, o = Rejected err)).
  { rewrite run_lockApp.
    destruct (txFails e); [do 2 eexists; split_and!; [done..|by eauto]|].
    destruct (users (db w) !! uid);
      [|do 2 eexists; split_and!; [done..|by eauto]].
    case_bool_decide; [|do 2 eexists; split_and!; [done..|by eauto]].
    destruct (getFails e); [do 2 eexists; split_and!; done|].
    destruct (android e && nativeFails e); [do 2 eexists; split_and!; done|].
    do 2 eexists. split_and!; [done|apply db_pushed|done]. }
  destruct Hlock as (w' & o & Hrun & Hdb & Hnew).
  split_and!.
  - intros apps. apply flagsFollow_withLockStatus.
  - intros pkgs. apply flagsFollow_withLockStatus.
  - apply flagsFollow_withLockStatus.
  - intros q. apply isAppLocked_toggle.
  - unfold confirmUnlock. fold pkg.
    destruct (run_rejecting_edit e uid
                (BlockerService.unlockAppPermanentlyTx e uid pkg) w)
      as [err Hrej]; [apply unlockAppPermanentlyTx_eq|].
    unfold BlockerService.unlockAppPermanently. by rewrite Hrej.
  - intros Hl. unfold handleToggleLock. by rewrite Hl.
  - intros Hpkg. unfold handleToggleLock. fold pkg. rewrite Hrun.
    destruct (Hnew Hpkg) as [-> [err ->]]. by destruct (isLocked app).
  - unfold handleToggleLock. fold pkg. rewrite Hrun.
    destruct (isLocked app); [by exists st, w; auto|].
    destruct o; do 2 eexists; split_and!; eauto.
Qed.

End store.
